(** * The pod execution agent of HPK: a shallow embedding

    The agent is the Go program [package main] whose [main] fetches a pod,
    prepares DNS and the environment, runs the init containers one after
    the other, spawns one goroutine per main container and then waits for a
    signal.  The embedding follows the source function by function:
    [getPodDetails], [fileExists], [main], [prepareContainers],
    [announceIP], [cleanEnvironment], [prepareDNS], [DebugDNSInfo],
    [handleInitContainers] and [handleContainers].

    Go strings are [string]; slices are lists (a slice whose nil-ness the
    code inspects is an [option (list _)]); Go maps and the file system are
    [gmap]s; the operating system is an oracle record [Host]; effects are
    threaded through a monad that passes the state (environment, files
    written, logical clock, goroutines) and collects the observable events
    of a computation in order. *)

From Stdlib Require Import ZArith String Ascii List Lia DecimalString.
From stdpp Require Import gmap strings list.
Import ListNotations.

Open Scope string_scope.
Open Scope list_scope.
Open Scope Z_scope.

(* ===================================================================== *)
(** * Go standard library functions used by the agent *)
(* ===================================================================== *)

(** A Go [error] value; [None] is [nil]. *)
Definition error : Type := option string.

(** [strconv.Itoa], also the rendering of [%d] by [fmt.Sprintf]. *)
Definition strconv_Itoa (n : Z) : string := NilZero.string_of_int (Z.to_int n).

(** [strings.Join]. *)
Fixpoint strings_Join (elems : list string) (sep : string) : string :=
  match elems with
  | [] => ""
  | e :: rest =>
      match rest with
      | [] => e
      | _ :: _ => e +:+ sep +:+ strings_Join rest sep
      end
  end.

(** [filepath.Join] on two elements that are already lexically clean (no
    empty, [.] or [..] component), which is what the agent passes to it:
    directory names built by the endpoint package and Kubernetes object
    names. *)
Definition filepath_Join (dir name : string) : string := dir +:+ "/" +:+ name.

(** [time.Duration] counts nanoseconds. *)
Definition Duration : Type := Z.
Definition time_Second : Duration := 1000000000.
Definition time_Minute : Duration := 60 * time_Second.

(* ===================================================================== *)
(** * The pod, as far as the agent reads it *)
(* ===================================================================== *)

Record VolumeMount : Type := {
  MountName : string;          (* mount.Name *)
  MountPath : string;
  ReadOnly : bool
}.

(** [Command] keeps the difference between a nil slice ([None]) and an
    allocated one ([Some l], possibly of length 0): the agent tests
    [container.Command == nil].  [Args] and [VolumeMounts] are only ranged
    over, measured and appended, for which a nil slice is an empty one. *)
Record Container : Type := {
  Name : string;
  Image : string;
  Command : option (list string);
  Args : list string;
  VolumeMounts : list VolumeMount
}.

Record Pod : Type := {
  Namespace : string;
  GetName : string;
  Annotations : gmap string string;
  InitContainers : list Container;
  Containers : list Container
}.

(** Reading a Go map yields the zero value for a missing key. *)
Definition annotation (pod : Pod) (key : string) : string :=
  default "" (Annotations pod !! key).

(** The elements a slice contributes to [append(xs, slice...)]. *)
Definition elems (slice : option (list string)) : list string := default [] slice.

(* ===================================================================== *)
(** * Endpoint paths *)
(* ===================================================================== *)

(** Modelled from the spec: the package [compute/endpoint] is not among the
    sources; the paths follow the pod file-system layout of the
    specification, [<workingDirectory>/<namespace>/<podName>/] with [.ip],
    [volumes/] and one directory per container holding [.env], [.id],
    [.exitCode] and [.logs]. *)
Definition PodDir (pod : Pod) : string :=
  filepath_Join (filepath_Join (annotation pod "workingDirectory") (Namespace pod)) (GetName pod).
Definition VolumeDir (pod : Pod) : string := filepath_Join (PodDir pod) "volumes".
Definition IPAddressPath (pod : Pod) : string := filepath_Join (PodDir pod) ".ip".
Definition ContainerDir (pod : Pod) (name : string) : string := filepath_Join (PodDir pod) name.
Definition EnvFilePath (pod : Pod) (name : string) : string := filepath_Join (ContainerDir pod name) ".env".
Definition IDPath (pod : Pod) (name : string) : string := filepath_Join (ContainerDir pod name) ".id".
Definition ExitCodePath (pod : Pod) (name : string) : string := filepath_Join (ContainerDir pod name) ".exitCode".
Definition LogsPath (pod : Pod) (name : string) : string := filepath_Join (ContainerDir pod name) ".logs".

(* ===================================================================== *)
(** * Construction of the runtime argument vector *)
(* ===================================================================== *)

(** [fmt.Sprintf("%s_%s_%s", pod.GetNamespace(), pod.GetName(), container.Name)] *)
Definition instanceName (pod : Pod) (container : Container) : string :=
  Namespace pod +:+ "_" +:+ GetName pod +:+ "_" +:+ Name container.

(** [executionMode := "exec"; if container.Command == nil { executionMode = "run" }] *)
Definition executionMode (container : Container) : string :=
  match Command container with
  | None => "run"
  | Some _ => "exec"
  end.

(** One iteration of the loop over [container.VolumeMounts]. *)
Definition bindOf (pod : Pod) (mount : VolumeMount) : string :=
  let hostPath := filepath_Join (VolumeDir pod) (MountName mount) in
  let accessMode := if ReadOnly mount then "ro" else "rw" in
  hostPath +:+ ":" +:+ MountPath mount +:+ ":" +:+ accessMode.

(** [binds] after the loop: one entry per volume mount, in order. *)
Definition bindsOf (pod : Pod) (container : Container) : list string :=
  map (bindOf pod) (VolumeMounts container).

Definition dnsBind : string :=
  "/scratch/etc/resolv.conf:/etc/resolv.conf,/scratch/etc/hosts:/etc/hosts".

(** [bindArgs := &apptainerArgs[len(apptainerArgs)-1]; *bindArgs += suffix]:
    an update in place of the last element.  The vector holds at least the
    seven fixed arguments wherever the agent does this. *)
Definition appendToLast (apptainerArgs : list string) (suffix : string) : list string :=
  alter (fun last => last +:+ suffix) (length apptainerArgs - 1)%nat apptainerArgs.

Definition fixedArgs (isDebug : bool) (container : Container) : list string :=
  let apptainerVerbosity := if isDebug then "--debug" else "--quiet" in
  [apptainerVerbosity; executionMode container; "--cleanenv"; "--writable-tmpfs";
   "--no-mount"; "home"; "--unsquash"].

(** The bind step of [handleInitContainers]: the test on [len(binds)] is
    outside the test on [hpkEnv]. *)
Definition initBindStep (hpkEnv : bool) (binds : list string) (apptainerArgs : list string) : list string :=
  let apptainerArgs :=
    if hpkEnv then apptainerArgs ++ ["--bind"; dnsBind] else apptainerArgs in
  if (0 <? length binds)%nat
  then appendToLast apptainerArgs ("," +:+ strings_Join binds ",")
  else apptainerArgs.

(** The bind step of [handleContainers]: the test on [len(binds)] is nested
    in the test on [hpkEnv]. *)
Definition mainBindStep (hpkEnv : bool) (binds : list string) (apptainerArgs : list string) : list string :=
  if hpkEnv then
    let apptainerArgs := apptainerArgs ++ ["--bind"; dnsBind] in
    if (0 <? length binds)%nat
    then appendToLast apptainerArgs ("," +:+ strings_Join binds ",")
    else apptainerArgs
  else apptainerArgs.

(** [if uid != 0 {...}; if gid != 0 {...}], the same in both functions. *)
Definition securityStep (uid gid : Z) (apptainerArgs : list string) : list string :=
  let apptainerArgs :=
    if uid =? 0 then apptainerArgs
    else apptainerArgs ++
         ["--security"; "uid:" +:+ strconv_Itoa uid +:+ ",gid:" +:+ strconv_Itoa uid; "--userns"] in
  if gid =? 0 then apptainerArgs
  else apptainerArgs ++ ["--security"; "gid:" +:+ strconv_Itoa gid; "--userns"].

(** The tail of the vector: env file, image, command and arguments.
    [envFileExists] is the result of the second [fileExists(envFilePath)];
    [imagePath] is [hpk.ImageDir()+image.ParseImageName(container.Image)]. *)
Definition tailStep (envFileExists : bool) (pod : Pod) (imagePath : string)
    (container : Container) (apptainerArgs : list string) : list string :=
  let apptainerArgs :=
    if envFileExists
    then apptainerArgs ++ ["--env-file"; filepath_Join "/scratch" (instanceName pod container +:+ ".env")]
    else apptainerArgs in
  let apptainerArgs := apptainerArgs ++ [imagePath] in
  let apptainerArgs := apptainerArgs ++ elems (Command container) in
  apptainerArgs ++ Args container.

(** The argument vector [handleInitContainers] builds for one container. *)
Definition initApptainerArgs (isDebug hpkEnv : bool) (uid gid : Z) (envFileExists : bool)
    (imagePath : string) (pod : Pod) (container : Container) : list string :=
  tailStep envFileExists pod imagePath container
    (securityStep uid gid
       (initBindStep hpkEnv (bindsOf pod container) (fixedArgs isDebug container))).

(** The argument vector [handleContainers] builds for one container. *)
Definition mainApptainerArgs (isDebug hpkEnv : bool) (uid gid : Z) (envFileExists : bool)
    (imagePath : string) (pod : Pod) (container : Container) : list string :=
  tailStep envFileExists pod imagePath container
    (securityStep uid gid
       (mainBindStep hpkEnv (bindsOf pod container) (fixedArgs isDebug container))).

(* ===================================================================== *)
(** * The operating system and the other collaborators, as an oracle *)
(* ===================================================================== *)

Inductive Errno : Type := ENOENT | EACCES | ENOTDIR | ELOOP | ENAMETOOLONG | EIO.

(** [os.IsNotExist] on the error of a failed [stat]: only [ENOENT]. *)
Definition os_IsNotExist (err : Errno) : bool :=
  match err with
  | ENOENT => true
  | _ => false
  end.

Record FileInfo : Type := { IsDir : bool }.

(** The pair [(info, err)] returned by [os.Stat]. *)
Inductive StatResult : Type :=
| StatInfo (info : FileInfo)
| StatError (err : Errno).

(** An element of [net.InterfaceAddrs()]: whether it is a [*net.IPNet],
    whether its IP is a loopback address, whether [To4()] is non-nil, and
    [IP.String()]. *)
Record Addr : Type := {
  isIPNet : bool;
  IsLoopback : bool;
  hasTo4 : bool;
  IPString : string
}.

(** What happens to an [exec.Cmd]: [Start] fails and [cmd.Process] stays
    nil, or the child gets a pid and later terminates with an exit code. *)
Inductive ChildRun : Type :=
| StartFails (err : string)
| Runs (pid : Z) (exitCode : Z).

Inductive Kind : Type := Init | Main.

Record Host : Type := {
  (* command line and client construction *)
  flag_pod : string;
  flag_namespace : string;
  BuildConfigFromFlags_err : error;
  NewForConfig_err : error;
  (* the API server: time taken by, and reply to, the n-th Get request *)
  api_latency : nat -> N;
  api_reply : nat -> string -> string -> option Pod;
  (* the operating system; [os_Stat] is what [stat] reports for the files
     the agent probes, the [.env] scripts, which it never writes itself *)
  os_Environ : gmap string string;
  os_Stat : string -> StatResult;
  os_MkdirAll_err : string -> error;
  os_WriteFile_err : string -> error;
  os_Create_err : string -> error;
  os_Hostname : string * error;
  net_InterfaceAddrs : list Addr * error;
  os_Getpid : Z;
  sh_CombinedOutput : string -> string * error;
  apptainer : Kind -> nat -> list string -> ChildRun;
  (* after the n-th go statement: the goroutines the scheduler steps before
     the main goroutine goes on *)
  preempt : nat -> list nat;
  (* packages of the repository that are not among the sources:
     podhandler.DetermineEffectiveRunAsUser applied to
     podhandler.DetermineEffectiveSecurityContext, image.ParseImageName and
     endpoint's ImageDir *)
  DetermineEffectiveRunAsUser : Pod -> Container -> Z * Z;
  ParseImageName : string -> string;
  ImageDir : Pod -> string
}.

(* ===================================================================== *)
(** * Program state, observable events and the monad of effects *)
(* ===================================================================== *)

Inductive Event : Type :=
| EvLog (level msg : string)
| EvGet (n : nat) (took : Duration)
| EvSleep (d : Duration)
| EvMkdirAll (path : string)
| EvWriteFile (path content : string)
| EvCreate (path : string)
| EvUnsetenv (name : string)
| EvShell (script : string)
| EvGo (i : nat)
| EvSpawn (k : Kind) (i : nat) (argv : list string)
| EvTerminated (k : Kind) (i : nat) (exitCode : Z).

(** The goroutine of [handleContainers] for one main container, with what
    its closure captured. *)
Record Task : Type := {
  taskIndex : nat;
  taskContainer : Container;
  taskArgs : list string
}.

(** Where a goroutine stands. *)
Inductive TaskPC : Type :=
| AtCreate
| AtStart
| AtPid (process : option (Z * Z))
| AtWait (exitCode : Z)
| AtExitCode (exitCode : Z)
| Finished.

Record State : Type := {
  environ : gmap string string;
  files : gmap string string;
  now : Duration;
  gets : nat;
  goroutines : list (Task * TaskPC)
}.

Definition initialState (h : Host) : State :=
  {| environ := os_Environ h; files := ∅; now := 0; gets := 0%nat; goroutines := [] |}.

(** How a computation ends: it yields a value, the process dies of an
    unrecovered panic, the process calls [os.Exit], the main goroutine
    blocks for ever, or the model ran out of fuel. *)
Inductive Res (A : Type) : Type :=
| Ret (a : A)
| Panic (msg : string)
| Exit (code : Z)
| Blocked
| OutOfFuel.
Arguments Ret {A} a.
Arguments Panic {A} msg.
Arguments Exit {A} code.
Arguments Blocked {A}.
Arguments OutOfFuel {A}.

(** A result that is not a value, at another type. *)
Definition abort {A B : Type} (r : Res A) : Res B :=
  match r with
  | Ret _ => OutOfFuel
  | Panic msg => Panic msg
  | Exit code => Exit code
  | Blocked => Blocked
  | OutOfFuel => OutOfFuel
  end.

(** A computation maps a state to its result, the new state and the events
    it caused, oldest first. *)
Definition M (A : Type) : Type := State -> Res A * State * list Event.

Definition ret {A : Type} (a : A) : M A := fun s => (Ret a, s, []).

Definition bind {A B : Type} (m : M A) (k : A -> M B) : M B :=
  fun s =>
    match m s with
    | (Ret a, s1, evs1) =>
        match k a s1 with
        | (r, s2, evs2) => (r, s2, evs1 ++ evs2)
        end
    | (r, s1, evs1) => (abort r, s1, evs1)
    end.

Notation "x <- m ;; k" := (bind m (fun x => k))
  (at level 100, m at next level, right associativity).
Notation "m ;; k" := (bind m (fun _ => k))
  (at level 100, right associativity).

Definition panic {A : Type} (msg : string) : M A := fun s => (Panic msg, s, []).
Definition os_Exit {A : Type} (code : Z) : M A := fun s => (Exit code, s, []).
Definition blocked {A : Type} : M A := fun s => (Blocked, s, []).
Definition outOfFuel {A : Type} : M A := fun s => (OutOfFuel, s, []).

Definition emit (e : Event) : M unit := fun s => (Ret tt, s, [e]).

Definition log (level msg : string) : M unit := emit (EvLog level msg).

(** zerolog's [log.Fatal()] writes the message and calls [os.Exit(1)]. *)
Definition log_Fatal {A : Type} (msg : string) : M A := log "fatal" msg ;; os_Exit 1.

Definition time_Now : M Duration := fun s => (Ret (now s), s, []).

Definition time_Sleep (d : Duration) : M unit :=
  fun s => (Ret tt,
            {| environ := environ s; files := files s; now := now s + d; gets := gets s;
               goroutines := goroutines s |},
            [EvSleep d]).

Definition os_Getenv (name : string) : M string :=
  fun s => (Ret (default "" (environ s !! name)), s, []).

Definition os_Unsetenv (name : string) : M error :=
  fun s => (Ret None,
            {| environ := delete name (environ s); files := files s; now := now s;
               gets := gets s; goroutines := goroutines s |},
            [EvUnsetenv name]).

Definition os_MkdirAll (h : Host) (path : string) : M error :=
  match os_MkdirAll_err h path with
  | Some e => ret (Some e)
  | None => emit (EvMkdirAll path) ;; ret None
  end.

Definition storeFile (path content : string) (e : Event) : M unit :=
  fun s => (Ret tt,
            {| environ := environ s; files := <[path := content]> (files s); now := now s;
               gets := gets s; goroutines := goroutines s |},
            [e]).

(** [os.WriteFile] as one step: once the call has returned without error
    the file holds the whole content.  What a file holds when the process
    ends in the middle of a call is not modelled. *)
Definition os_WriteFile (h : Host) (path content : string) : M error :=
  match os_WriteFile_err h path with
  | Some e => ret (Some e)
  | None => storeFile path content (EvWriteFile path content) ;; ret None
  end.

(** [os.Create] truncates or creates the file. *)
Definition os_Create (h : Host) (path : string) : M error :=
  match os_Create_err h path with
  | Some e => ret (Some e)
  | None => storeFile path "" (EvCreate path) ;; ret None
  end.

(* ===================================================================== *)
(** * Pod acquisition *)
(* ===================================================================== *)

(** The deadline of the context in [getPodDetails]: [10*time.Second]. *)
Definition rpcTimeout : Duration := 10 * time_Second.

(** [getPodDetails]: one Get request under the context deadline.  A reply
    that would take the deadline or longer is an error returned when the
    deadline expires.  [None] is the result [(nil, err)]. *)
Definition getPodDetails (h : Host) (namespace podID : string) : M (option Pod) :=
  fun s =>
    let n := gets s in
    let latency := Z.of_N (api_latency h n) in
    let expired := rpcTimeout <=? latency in
    let took := if expired then rpcTimeout else latency in
    let reply := if expired then None else api_reply h n namespace podID in
    (Ret reply,
     {| environ := environ s; files := files s; now := now s + took; gets := S n;
        goroutines := goroutines s |},
     [EvGet n took]).

Definition retryInterval : Duration := 5 * time_Second.
Definition acquireTimeout : Duration := 5 * time_Minute.

(** The loop labelled [acquire_pod_loop] of [main].  [deadline] is the
    instant at which the channel of [time.After] becomes ready; the [select]
    takes its [default] branch only while that channel is not ready. *)
Fixpoint acquire_pod_loop (h : Host) (fuel : nat) (deadline : Duration) : M unit :=
  match fuel with
  | O => outOfFuel
  | S fuel' =>
      t <- time_Now ;;
      if deadline <=? t then
        log "error" "Timeout reached. Exiting." ;; os_Exit 1
      else
        reply <- getPodDetails h (flag_namespace h) (flag_pod h) ;;
        match reply with
        | None =>
            log "error" "Error getting pod details. Retrying..." ;;
            time_Sleep retryInterval ;;
            acquire_pod_loop h fuel' deadline
        | Some _ => ret tt
        end
  end.

(** From [timeout := time.After(5 * time.Minute)] to the second
    [getPodDetails] of [main], whose error is a panic. *)
Definition acquirePod (h : Host) (fuel : nat) : M Pod :=
  t0 <- time_Now ;;
  acquire_pod_loop h fuel (t0 + acquireTimeout) ;;
  reply <- getPodDetails h (flag_namespace h) (flag_pod h) ;;
  match reply with
  | None => panic "getPodDetails"
  | Some pod => ret pod
  end.

(* ===================================================================== *)
(** * fileExists *)
(* ===================================================================== *)

Definition fileExists (h : Host) (filename : string) : M bool :=
  if String.eqb filename "" then ret false
  else
    match os_Stat h filename with
    | StatError err =>
        if os_IsNotExist err then ret false
        else panic "stat"
    | StatInfo info => ret (negb (IsDir info))
    end.

(* ===================================================================== *)
(** * Environment preparation *)
(* ===================================================================== *)

Definition tab : string := String (ascii_of_nat 9) "".
Definition newline : string := String (ascii_of_nat 10) "".

(** The raw string literal of [prepareDNS] after [fmt.Sprintf]: its second
    and third lines start with the tab that indents them in the source. *)
Definition resolvConfContent (namespace kubeDNSIP : string) : string :=
  "search " +:+ namespace +:+ ".svc.cluster.local svc.cluster.local cluster.local" +:+ newline +:+
  tab +:+ "nameserver " +:+ kubeDNSIP +:+ newline +:+
  tab +:+ "options ndots:5".

(** The resolver file of the script template that the source keeps after
    the Go program: the here-document of [handle_dns], with the namespace
    and the DNS address filled in.  Every keyword starts its line. *)
Definition handle_dns (namespace kubeDNS : string) : string :=
  "search " +:+ namespace +:+ ".svc.cluster.local svc.cluster.local cluster.local" +:+ newline +:+
  "nameserver " +:+ kubeDNS +:+ newline +:+
  "options ndots:5" +:+ newline.

Definition separator : string :=
  "====================================================================".

(** [DebugDNSInfo] prints both files to the standard output. *)
Definition DebugDNSInfo (resolvConfContent hostsContent : string) : M unit :=
  log "stdout" (separator +:+ newline +:+ resolvConfContent +:+ newline) ;;
  log "stdout" (separator +:+ newline +:+ hostsContent) ;;
  log "stdout" (separator +:+ newline).

(** The loop over [addrs] in [prepareDNS] and [announceIP]. *)
Definition ipAddressesOf (addrs : list Addr) : list string :=
  map IPString
      (List.filter (fun addr => isIPNet addr && negb (IsLoopback addr) && hasTo4 addr) addrs).

Definition prepareDNS (h : Host) (pod : Pod) : M error :=
  err <- os_MkdirAll h "/scratch/etc" ;;
  match err with
  | Some e => ret (Some ("could not create /scratch/etc folder: " +:+ e))
  | None =>
  kubeDNSIP <- os_Getenv "KUBEDNS_IP" ;;
  if String.eqb kubeDNSIP "" then ret (Some "KUBEDNS_IP environment variable not set")
  else
  let content := resolvConfContent (Namespace pod) kubeDNSIP in
  err <- os_WriteFile h "/scratch/etc/resolv.conf" content ;;
  match err with
  | Some e => ret (Some ("error writing to resolv.conf: " +:+ e))
  | None =>
  match os_Hostname h with
  | (_, Some e) => ret (Some ("error getting hostname: " +:+ e))
  | (hostname, None) =>
  match net_InterfaceAddrs h with
  | (_, Some e) => ret (Some ("could not get interfaces from host: " +:+ e))
  | (addrs, None) =>
  let ipString := strings_Join (ipAddressesOf addrs) " " +:+ " " +:+ hostname in
  let hostsContent := "127.0.0.1 localhost" +:+ newline +:+ ipString +:+ " " +:+ newline in
  err <- os_WriteFile h "/scratch/etc/hosts" hostsContent ;;
  match err with
  | Some e => ret (Some ("error writing to hosts: " +:+ e))
  | None => DebugDNSInfo content hostsContent ;; ret None
  end end end end end.

Definition announceIP (h : Host) (pod : Pod) : M error :=
  match net_InterfaceAddrs h with
  | (_, Some e) => ret (Some ("could not get interfaces from host: " +:+ e))
  | (addrs, None) =>
  let ipString := strings_Join (ipAddressesOf addrs) " " in
  err <- os_WriteFile h (IPAddressPath pod) ipString ;;
  match err with
  | Some e => ret (Some ("error writing to .ip file: " +:+ e))
  | None => ret None
  end end.

Definition envVars : list string :=
  ["LD_LIBRARY_PATH"; "SINGULARITY_COMMAND"; "SINGULARITY_CONTAINER";
   "SINGULARITY_ENVIRONMENT"; "SINGULARITY_NAME"; "APPTAINER_APPNAME";
   "APPTAINER_COMMAND"; "APPTAINER_CONTAINER"; "APPTAINER_ENVIRONMENT";
   "APPTAINER_NAME"; "APPTAINER_BIND"; "SINGULARITY_BIND"].

Fixpoint unsetAll (names : list string) : M error :=
  match names with
  | [] => ret None
  | name :: rest =>
      err <- os_Unsetenv name ;;
      match err with
      | Some e => ret (Some ("could not clear the environment variable " +:+ name +:+ ": " +:+ e))
      | None => unsetAll rest
      end
  end.

Definition cleanEnvironment : M error := unsetAll envVars.

Definition prepareContainers (h : Host) (pod : Pod) : M error :=
  err <- prepareDNS h pod ;;
  match err with
  | Some e => ret (Some ("could not prepare DNS : " +:+ e))
  | None =>
  err <- announceIP h pod ;;
  match err with
  | Some e => ret (Some ("could not announce ip : " +:+ e))
  | None =>
  err <- cleanEnvironment ;;
  match err with
  | Some e => ret (Some ("could not clear the environment : " +:+ e))
  | None => ret None
  end end end.

(* ===================================================================== *)
(** * Container launcher *)
(* ===================================================================== *)

(** The block headed [// Environment File Handling], the same in both
    launcher functions. *)
Definition evaluateEnvFile (h : Host) (pod : Pod) (container : Container) : M error :=
  let envFilePath := EnvFilePath pod (Name container) in
  present <- fileExists h envFilePath ;;
  if present then
    emit (EvShell envFilePath) ;;
    match sh_CombinedOutput h envFilePath with
    | (output, Some e) =>
        ret (Some ("error executing EnvFilePath: " +:+ e +:+ ", output: " +:+ output))
    | (output, None) =>
        let envFileName := filepath_Join "/scratch" (instanceName pod container +:+ ".env") in
        err <- os_WriteFile h envFileName output ;;
        match err with
        | Some e => ret (Some ("error writing env file: " +:+ e))
        | None => ret None
        end
    end
  else ret None.

Definition imagePathOf (h : Host) (pod : Pod) (container : Container) : string :=
  ImageDir h pod +:+ ParseImageName h (Image container).

(** [cmd.Run()]: start the child and wait for it.  The error is non-nil
    when the start fails and when the exit status is not 0; the second
    component is [cmd.ProcessState.ExitCode()]. *)
Definition cmd_Run (h : Host) (k : Kind) (i : nat) (argv : list string) : M (error * Z) :=
  match apptainer h k i argv with
  | StartFails e => ret (Some e, -1)
  | Runs pid exitCode =>
      emit (EvSpawn k i argv) ;;
      emit (EvTerminated k i exitCode) ;;
      ret (if exitCode =? 0 then None else Some ("exit status " +:+ strconv_Itoa exitCode),
           exitCode)
  end.

(** The end of the loop body of [handleInitContainers], from [cmd.Run()]
    on: an error of [cmd.Run()] is logged and returned at once; only after a
    run without error is the exit code written. *)
Definition runInitContainer (h : Host) (pod : Pod) (i : nat) (container : Container)
    (apptainerArgs : list string) : M error :=
  ran <- cmd_Run h Init i apptainerArgs ;;
  match ran with
  | (Some e, _) =>
      log "error" ("Error executing init container: " +:+ Name container) ;;
      ret (Some ("init container failed: " +:+ e))
  | (None, exitCode) =>
      err <- os_WriteFile h (ExitCodePath pod (Name container)) (strconv_Itoa exitCode) ;;
      match err with
      | Some _ => ret (Some "failed to create exitCode file")
      | None => ret None
      end
  end.

(** The body of the loop of [handleInitContainers] for the container at
    index [i]; [Some _] is an early [return] with an error. *)
Definition initContainerBody (h : Host) (pod : Pod) (hpkEnv isDebug : bool)
    (i : nat) (container : Container) : M error :=
  let (uid, gid) := DetermineEffectiveRunAsUser h pod container in
  log "info" ("Spawning init container: " +:+ Name container) ;;
  err <- evaluateEnvFile h pod container ;;
  match err with
  | Some e => ret (Some e)
  | None =>
  present <- fileExists h (EnvFilePath pod (Name container)) ;;
  let apptainerArgs :=
    initApptainerArgs isDebug hpkEnv uid gid present (imagePathOf h pod container) pod container in
  let pid := os_Getpid h in
  err <- os_WriteFile h (IDPath pod (Name container)) ("pid://" +:+ strconv_Itoa pid) ;;
  match err with
  | Some _ => ret (Some "failed to create pid file")
  | None =>
  log "debug" "ApptainerArgs" ;;
  err <- os_Create h (LogsPath pod (Name container)) ;;
  match err with
  | Some e => ret (Some ("failed to create log file: " +:+ e))
  | None => runInitContainer h pod i container apptainerArgs
  end end end.

Fixpoint initContainersFrom (h : Host) (pod : Pod) (hpkEnv isDebug : bool)
    (i : nat) (containers : list Container) : M error :=
  match containers with
  | [] => ret None
  | container :: rest =>
      err <- initContainerBody h pod hpkEnv isDebug i container ;;
      match err with
      | Some e => ret (Some e)
      | None => initContainersFrom h pod hpkEnv isDebug (S i) rest
      end
  end.

Definition handleInitContainers (h : Host) (pod : Pod) (hpkEnv : bool) : M error :=
  debugMode <- os_Getenv "DEBUG_MODE" ;;
  initContainersFrom h pod hpkEnv (String.eqb debugMode "true") 0%nat (InitContainers pod).

(** One scheduling step of the goroutine started by [handleContainers].
    After a failed [cmd.Start()] the goroutine only logs and goes on to
    read [cmd.Process.Pid] with [cmd.Process] nil. *)
Definition goroutineStep (h : Host) (pod : Pod) (t : Task) (pc : TaskPC) : M TaskPC :=
  let name := Name (taskContainer t) in
  match pc with
  | AtCreate =>
      log "debug" "ApptainerArgs" ;;
      err <- os_Create h (LogsPath pod name) ;;
      match err with
      | Some _ => log "error" ("Failed to create log file " +:+ LogsPath pod name) ;; ret Finished
      | None => ret AtStart
      end
  | AtStart =>
      log "info" ("Spawning main container: " +:+ name) ;;
      match apptainer h Main (taskIndex t) (taskArgs t) with
      | StartFails _ =>
          log "error" "Failed to start Apptainer container" ;;
          ret (AtPid None)
      | Runs pid exitCode =>
          emit (EvSpawn Main (taskIndex t) (taskArgs t)) ;;
          ret (AtPid (Some (pid, exitCode)))
      end
  | AtPid None => panic "invalid memory address or nil pointer dereference"
  | AtPid (Some (pid, exitCode)) =>
      err <- os_WriteFile h (IDPath pod name) ("pid://" +:+ strconv_Itoa pid) ;;
      match err with
      | Some _ => log "error" "Failed to create pid file" ;; ret Finished
      | None => ret (AtWait exitCode)
      end
  | AtWait exitCode =>
      emit (EvTerminated Main (taskIndex t) exitCode) ;;
      (if exitCode =? 0 then ret tt
       else log "error" ("error executing container: " +:+ name)) ;;
      ret (AtExitCode exitCode)
  | AtExitCode exitCode =>
      err <- os_WriteFile h (ExitCodePath pod name) (strconv_Itoa exitCode) ;;
      match err with
      | Some _ => log "error" "Failed to create exitCode file" ;; ret Finished
      | None => ret Finished
      end
  | Finished => ret Finished
  end.

Definition getGoroutines : M (list (Task * TaskPC)) := fun s => (Ret (goroutines s), s, []).

Definition setGoroutines (gs : list (Task * TaskPC)) : M unit :=
  fun s => (Ret tt,
            {| environ := environ s; files := files s; now := now s; gets := gets s;
               goroutines := gs |},
            []).

(** The [go] statement: [wg.Add(1)] and a new goroutine at its first step. *)
Definition go (t : Task) : M unit :=
  emit (EvGo (taskIndex t)) ;;
  gs <- getGoroutines ;;
  setGoroutines (gs ++ [(t, AtCreate)]).

(** The scheduler gives one step to goroutine [i].  A panic in a goroutine
    is not recovered anywhere, so it ends the process. *)
Definition runGoroutine (h : Host) (pod : Pod) (i : nat) : M unit :=
  gs <- getGoroutines ;;
  match gs !! i with
  | None => ret tt
  | Some (t, pc) =>
      pc' <- goroutineStep h pod t pc ;;
      setGoroutines (<[i := (t, pc')]> gs)
  end.

Fixpoint runGoroutines (h : Host) (pod : Pod) (steps : list nat) : M unit :=
  match steps with
  | [] => ret tt
  | i :: rest => runGoroutine h pod i ;; runGoroutines h pod rest
  end.

Fixpoint containersFrom (h : Host) (pod : Pod) (hpkEnv isDebug : bool)
    (i : nat) (containers : list Container) : M error :=
  match containers with
  | [] => ret None
  | container :: rest =>
      let (uid, gid) := DetermineEffectiveRunAsUser h pod container in
      err <- evaluateEnvFile h pod container ;;
      match err with
      | Some e => ret (Some e)
      | None =>
      present <- fileExists h (EnvFilePath pod (Name container)) ;;
      let apptainerArgs :=
        mainApptainerArgs isDebug hpkEnv uid gid present (imagePathOf h pod container) pod container in
      go {| taskIndex := i; taskContainer := container; taskArgs := apptainerArgs |} ;;
      runGoroutines h pod (preempt h i) ;;
      containersFrom h pod hpkEnv isDebug (S i) rest
      end
  end.

Definition handleContainers (h : Host) (pod : Pod) (hpkEnv : bool) : M error :=
  debugMode <- os_Getenv "DEBUG_MODE" ;;
  containersFrom h pod hpkEnv (String.eqb debugMode "true") 0%nat (Containers pod).

(* ===================================================================== *)
(** * Supervisor and main *)
(* ===================================================================== *)

Inductive Signal : Type := SIGINT | SIGTERM | SIGCHLD.

(** What happens while the main goroutine waits on [<-ctx.Done()]: the
    scheduler steps a goroutine, or one of the three notified signals is
    delivered. *)
Inductive Sched : Type :=
| Step (i : nat)
| Deliver (signo : Signal).

(** From [signal.Notify] to the end of [main].  Each of the three signals
    makes the handler goroutine call [cancel()], which lets the main
    goroutine return from [<-ctx.Done()]; with no signal it blocks. *)
Fixpoint awaitDone (h : Host) (pod : Pod) (schedule : list Sched) : M unit :=
  match schedule with
  | [] => blocked
  | Step i :: rest => runGoroutine h pod i ;; awaitDone h pod rest
  | Deliver SIGCHLD :: _ =>
      log "info" "Received SIGCHLD. Containers have terminated. " ;; ret tt
  | Deliver _ :: _ =>
      log "info" "Received signal. Cleaning up..." ;; ret tt
  end.

(** [main] from [prepareContainers] on, for the pod of the second fetch. *)
Definition launch (h : Host) (schedule : list Sched) (pod : Pod) : M unit :=
  err <- prepareContainers h pod ;;
  match err with
  | Some _ => log "error" "Error preparing container environment" ;; ret tt
  | None =>
  err <- (if (0 <? length (InitContainers pod))%nat
          then handleInitContainers h pod true
          else ret None) ;;
  match err with
  | Some _ => log "error" "Error executing init containers" ;; ret tt
  | None =>
  err <- handleContainers h pod true ;;
  match err with
  | Some _ => log "error" "Error executing main containers" ;; ret tt
  | None =>
  log "info" "Containers have started. Now waiting on context or signals" ;;
  awaitDone h pod schedule
  end end end.

Definition main (h : Host) (fuel : nat) (schedule : list Sched) : M unit :=
  (if String.eqb (flag_pod h) "" || String.eqb (flag_namespace h) ""
   then log_Fatal "Please provide both the pod and namespace."
   else ret tt) ;;
  match BuildConfigFromFlags_err h with
  | Some _ => log_Fatal "Error building kubeconfig"
  | None =>
  match NewForConfig_err h with
  | Some _ => log_Fatal "Error creating Kubernetes client"
  | None =>
  pod <- acquirePod h fuel ;;
  launch h schedule pod
  end end.

(** The exit status of the process: 0 when [main] returns, the argument of
    [os.Exit], 2 for an unrecovered panic; none while it has not ended. *)
Definition exitStatus {A : Type} (r : Res A) : option Z :=
  match r with
  | Ret _ => Some 0
  | Panic _ => Some 2
  | Exit code => Some code
  | Blocked => None
  | OutOfFuel => None
  end.

(** The agent run on a host. *)
Definition pea (h : Host) (fuel : nat) (schedule : list Sched) : Res unit * State * list Event :=
  main h fuel schedule (initialState h).

(* ===================================================================== *)
(** * Reading a resolver file *)
(* ===================================================================== *)

(** [strings.Split(s, sep)] for a separator of one character. *)
Fixpoint splitOn (sep : ascii) (s : string) : list string :=
  match s with
  | EmptyString => [""]
  | String c rest =>
      if Ascii.eqb c sep then "" :: splitOn sep rest
      else
        match splitOn sep rest with
        | piece :: pieces => String c piece :: pieces
        | [] => [String c ""]
        end
  end.

Definition isSpace (c : ascii) : bool :=
  Ascii.eqb c " " || Ascii.eqb c "009" || Ascii.eqb c "010" ||
  Ascii.eqb c "011" || Ascii.eqb c "012" || Ascii.eqb c "013".

(** [strings.Fields] on ASCII text: the maximal runs of non-space
    characters. *)
Fixpoint fields (s : string) : list string :=
  match s with
  | EmptyString => []
  | String c rest =>
      if isSpace c then fields rest
      else
        match rest with
        | EmptyString => [String c ""]
        | String c' _ =>
            if isSpace c' then String c "" :: fields rest
            else
              match fields rest with
              | tok :: toks => String c tok :: toks
              | [] => [String c ""]
              end
        end
  end.

Fixpoint noSpace (s : string) : bool :=
  match s with
  | EmptyString => true
  | String c rest => negb (isSpace c) && noSpace rest
  end.

(** A line whose first character is not white space. *)
Definition inFirstColumn (line : string) : bool :=
  match line with
  | EmptyString => false
  | String c _ => negb (isSpace c)
  end.

(** The lines of [content] that start with [keyword], each as its list of
    fields.  A resolver file is read as resolv.conf(5) says: the keyword
    must start the line and the value follows it, separated by white space;
    a line that starts with white space is not a [keyword] line. *)
Definition keywordLines (keyword content : string) : list (list string) :=
  List.filter
    (fun fs => match fs with
               | k :: _ => String.eqb k keyword
               | [] => false
               end)
    (map fields (List.filter inFirstColumn (splitOn "010" content))).

(** Property P6 of the specification for a resolver file: exactly one
    [nameserver] line, whose value is [kubeDNSIP], and a [search] line whose
    first element is [<namespace>.svc.cluster.local]. *)
Definition dnsSynthesis (namespace kubeDNSIP content : string) : Prop :=
  keywordLines "nameserver" content = [["nameserver"; kubeDNSIP]] /\
  exists others,
    keywordLines "search" content =
    [ "search" :: (namespace +:+ ".svc.cluster.local") :: others ].

(* ===================================================================== *)
(** * Statements about traces *)
(* ===================================================================== *)

(** Init container [i] of [pod] has finished within [tr]: it was spawned,
    then terminated with status 0, then its exit-code file was written. *)
Definition initCompleted (pod : Pod) (i : nat) (tr : list Event) : Prop :=
  exists container argv t1 t2 t3 t4,
    InitContainers pod !! i = Some container /\
    tr = t1 ++ EvSpawn Init i argv :: t2 ++ EvTerminated Init i 0 :: t3 ++
         EvWriteFile (ExitCodePath pod (Name container)) "0" :: t4.

(** The indices of the init containers spawned in [tr], in order. *)
Fixpoint initSpawns (tr : list Event) : list nat :=
  match tr with
  | [] => []
  | EvSpawn Init i _ :: rest => i :: initSpawns rest
  | _ :: rest => initSpawns rest
  end.

Definition isMainEvent (e : Event) : bool :=
  match e with
  | EvGo _ | EvSpawn Main _ _ | EvTerminated Main _ _ => true
  | _ => false
  end.

(* ===================================================================== *)
(** * Scenarios *)
(* ===================================================================== *)

Definition demoContainer (name : string) (command : option (list string)) : Container :=
  {| Name := name; Image := "busybox"; Command := command; Args := []; VolumeMounts := [] |}.

Definition demoPod (inits mains : list Container) : Pod :=
  {| Namespace := "default"; GetName := "demo";
     Annotations := {[ "workingDirectory" := "/work" ]};
     InitContainers := inits; Containers := mains |}.

(** A host on which every system call succeeds, no [.env] file exists, the
    API server answers every request with [pod] in a millisecond, and the
    behaviour of the children is [child]. *)
Definition demoHost (pod : Pod) (env : gmap string string)
    (child : Kind -> nat -> list string -> ChildRun) : Host :=
  {| flag_pod := "demo"; flag_namespace := "default";
     BuildConfigFromFlags_err := None; NewForConfig_err := None;
     api_latency := fun _ => 1000000%N;
     api_reply := fun _ _ _ => Some pod;
     os_Environ := env;
     os_Stat := fun _ => StatError ENOENT;
     os_MkdirAll_err := fun _ => None;
     os_WriteFile_err := fun _ => None;
     os_Create_err := fun _ => None;
     os_Hostname := ("nid001", None);
     net_InterfaceAddrs :=
       ([ {| isIPNet := true; IsLoopback := false; hasTo4 := true; IPString := "10.0.0.7" |} ],
        None);
     os_Getpid := 100;
     sh_CombinedOutput := fun _ => ("", None);
     apptainer := child;
     preempt := fun _ => [];
     DetermineEffectiveRunAsUser := fun _ _ => (0, 0);
     ParseImageName := fun image => image;
     ImageDir := fun _ => "/work/images/" |}.

Definition dnsEnv : gmap string string := {[ "KUBEDNS_IP" := "10.96.0.10" ]}.

(** Scenario 3 of the specification: init [prep] runs [/bin/false], main
    [app] is present. *)
Definition failingInitPod : Pod :=
  demoPod [demoContainer "prep" (Some ["/bin/false"])] [demoContainer "app" None].
Definition failingInitHost : Host :=
  demoHost failingInitPod dnsEnv
    (fun k _ _ => match k with Init => Runs 7 1 | Main => Runs 8 0 end).

(** Scenario 5 of the specification: [KUBEDNS_IP] is not set. *)
Definition noDNSHost : Host :=
  demoHost (demoPod [] [demoContainer "web" None]) ∅ (fun _ _ _ => Runs 8 0).

(** Two main containers; starting the runtime fails for the first. *)
Definition spawnErrorPod : Pod :=
  demoPod [] [demoContainer "bad" None; demoContainer "good" None].
Definition spawnErrorHost : Host :=
  demoHost spawnErrorPod dnsEnv
    (fun _ i _ => match i with
                  | O => StartFails "exec: apptainer: executable file not found in $PATH"
                  | S _ => Runs 8 0
                  end).
Definition spawnErrorSchedule : list Sched :=
  [Step 1; Step 1; Step 0; Step 0; Step 0; Step 1; Step 1; Step 1; Deliver SIGCHLD].

(* ===================================================================== *)
(** * Vocabulary of the statements *)
(* ===================================================================== *)

(** The two groups of security arguments. *)
Definition uidOverride (uid : Z) : list string :=
  ["--security"; "uid:" +:+ strconv_Itoa uid +:+ ",gid:" +:+ strconv_Itoa uid; "--userns"].
Definition gidOverride (gid : Z) : list string :=
  ["--security"; "gid:" +:+ strconv_Itoa gid; "--userns"].

(** The execution mode as the specification words it: [exec] when the
    command is non-empty, [run] otherwise. *)
Definition modeByEmptiness (container : Container) : string :=
  match elems (Command container) with
  | [] => "run"
  | _ :: _ => "exec"
  end.

(** What the n-th Get request yields under the deadline of
    [getPodDetails], and how long it takes. *)
Definition pollReply (h : Host) (n : nat) : option Pod :=
  if rpcTimeout <=? Z.of_N (api_latency h n) then None
  else api_reply h n (flag_namespace h) (flag_pod h).
Definition pollTook (h : Host) (n : nat) : Duration :=
  if rpcTimeout <=? Z.of_N (api_latency h n) then rpcTimeout else Z.of_N (api_latency h n).

(** The events of [k] consecutive failed polls, the first being request
    number [n]: each is a request, an error message and a sleep of five
    seconds. *)
Fixpoint failedPolls (h : Host) (n k : nat) : list Event :=
  match k with
  | O => []
  | S k' =>
      [EvGet n (pollTook h n); EvLog "error" "Error getting pod details. Retrying...";
       EvSleep (5 * time_Second)] ++ failedPolls h (S n) k'
  end.

(** Events that start or end no container process and no goroutine. *)
Definition quiet (e : Event) : bool :=
  match e with
  | EvGo _ | EvSpawn _ _ _ | EvTerminated _ _ _ => false
  | _ => true
  end.

(** Events that are not about an init container process. *)
Definition notInit (e : Event) : bool :=
  match e with
  | EvSpawn Init _ _ | EvTerminated Init _ _ => false
  | _ => true
  end.

Definition isRet {A : Type} (r : Res A) : bool :=
  match r with
  | Ret _ => true
  | _ => false
  end.

Definition notMain (e : Event) : bool := negb (isMainEvent e).

(** The events of one iteration of the loop of [handleInitContainers] that
    ran to its end: events that start nothing, then the spawn, the
    termination with status 0 and the write of the exit-code file. *)
Definition bodyCompleted (pod : Pod) (i : nat) (container : Container) (evs : list Event) : Prop :=
  exists pre argv,
    forallb quiet pre = true /\
    evs = pre ++ [EvSpawn Init i argv; EvTerminated Init i 0;
                  EvWriteFile (ExitCodePath pod (Name container)) "0"].

(** The events of an iteration that returned early or did not return. *)
Definition bodyAborted (i : nat) (evs : list Event) : Prop :=
  forallb quiet evs = true \/
  exists pre argv code post,
    forallb quiet pre = true /\ forallb quiet post = true /\
    evs = pre ++ [EvSpawn Init i argv; EvTerminated Init i code] ++ post.

Definition bodyShape (pod : Pod) (i : nat) (container : Container)
    (r : Res error) (evs : list Event) : Prop :=
  (r = Ret None /\ bodyCompleted pod i container evs) \/
  (r <> Ret None /\ bodyAborted i evs).

Definition bodySpec (pod : Pod) (i : nat) (container : Container) (m : M error) : Prop :=
  forall s r s' evs, m s = (r, s', evs) -> bodyShape pod i container r evs.

(** What holds of the events of the loop of [handleInitContainers] run
    from index [n] over the containers [l], with result [r]. *)
Definition initLoopProps (pod : Pod) (n : nat) (l : list Container)
    (r : Res error) (evs : list Event) : Prop :=
  (exists k, (k <= length l)%nat /\ initSpawns evs = seq n k) /\
  (forall j argv before after,
     evs = before ++ EvSpawn Init j argv :: after ->
     forall i, (n <= i < j)%nat -> initCompleted pod i before) /\
  (forall i code,
     In (EvTerminated Init i code) evs ->
     (n <= i)%nat /\
     (code <> 0 -> r <> Ret None /\ initSpawns evs = seq n (S (i - n)))) /\
  forallb notMain evs = true /\
  (r = Ret None -> forall i, (n <= i < n + length l)%nat -> initCompleted pod i evs).

(** Sequential execution of the init containers of [pod], read off the
    events [evs] of a run: the init containers spawned are the first [k] of
    the list, in order; when one is spawned all earlier ones have finished;
    after a non-zero exit status no later init container is spawned and
    nothing happens for a main container; and whatever happens for a main
    container happens after all init containers have finished. *)
Definition initSequential (pod : Pod) (evs : list Event) : Prop :=
  (exists k, (k <= length (InitContainers pod))%nat /\ initSpawns evs = seq 0 k) /\
  (forall j argv before after,
     evs = before ++ EvSpawn Init j argv :: after ->
     forall i, (i < j)%nat -> initCompleted pod i before) /\
  (forall i code,
     In (EvTerminated Init i code) evs -> code <> 0 ->
     (forall j argv, (i < j)%nat -> ~ In (EvSpawn Init j argv) evs) /\
     (forall e, In e evs -> isMainEvent e = false)) /\
  (forall e before after,
     evs = before ++ e :: after -> isMainEvent e = true ->
     forall i, (i < length (InitContainers pod))%nat -> initCompleted pod i before).

(** The three components of a run. *)
Definition resultOf {A : Type} (run : Res A * State * list Event) : Res A := fst (fst run).
Definition stateOf {A : Type} (run : Res A * State * list Event) : State := snd (fst run).
Definition eventsOf {A : Type} (run : Res A * State * list Event) : list Event := snd run.

(** Every event of the computation [m] satisfies [P]. *)
Definition emits {A : Type} (P : Event -> bool) (m : M A) : Prop :=
  forall s r s' evs, m s = (r, s', evs) -> forallb P evs = true.

Fixpoint noChar (c : ascii) (s : string) : bool :=
  match s with
  | EmptyString => true
  | String c' rest => negb (Ascii.eqb c' c) && noChar c rest
  end.

(** The three lines of the resolver file written by [prepareDNS]. *)
Definition searchLine (namespace : string) : string :=
  "search " +:+ namespace +:+ ".svc.cluster.local svc.cluster.local cluster.local".
Definition nameserverLine (kubeDNSIP : string) : string :=
  tab +:+ "nameserver " +:+ kubeDNSIP.
Definition optionsLine : string := tab +:+ "options ndots:5".

(* ===================================================================== *)
(** * Vocabulary of the further statements *)
(* ===================================================================== *)

(** [n] scheduling steps of one goroutine of [handleContainers]. *)
Fixpoint goroutineRun (h : Host) (pod : Pod) (t : Task) (n : nat) (pc : TaskPC) : M TaskPC :=
  match n with
  | O => ret pc
  | S n' => pc' <- goroutineStep h pod t pc ;; goroutineRun h pod t n' pc'
  end.

(** The computation [m] leaves the component [f] of the state as it is. *)
Definition keeps {A X : Type} (f : State -> X) (m : M A) : Prop :=
  forall s r s' evs, m s = (r, s', evs) -> f s' = f s.






(** A non-empty string without white space. *)
Definition token (t : string) : Prop := t <> "" /\ noSpace t = true.

Fixpoint lastChar (s : string) : option ascii :=
  match s with
  | EmptyString => None
  | String c rest =>
      match rest with
      | EmptyString => Some c
      | String _ _ => lastChar rest
      end
  end.

(** The events of the computation [m] satisfy [P], whatever the state. *)
Definition eventsSatisfy {A : Type} (P : list Event -> Prop) (m : M A) : Prop :=
  forall s r s' evs, m s = (r, s', evs) -> P evs.

(** Every spawn among the events [evs] of one iteration of the loop of
    [handleInitContainers] is the spawn of init container [i], with the
    argument vector built for [container], where the env file is taken to
    exist exactly when [fileExists] says so; it comes right after the write
    of [.id] with the agent's own pid and the creation of [.logs]; and the
    termination of the child is the next event. *)
Definition spawnedProperly (h : Host) (pod : Pod) (hpkEnv isDebug : bool)
    (i : nat) (container : Container) (evs : list Event) : Prop :=
  forall before k j argv after,
    evs = before ++ EvSpawn k j argv :: after ->
    k = Init /\ j = i /\
    (exists present,
       (forall s0, fileExists h (EnvFilePath pod (Name container)) s0 = (Ret present, s0, [])) /\
       argv = initApptainerArgs isDebug hpkEnv
                (fst (DetermineEffectiveRunAsUser h pod container))
                (snd (DetermineEffectiveRunAsUser h pod container))
                present (imagePathOf h pod container) pod container) /\
    (exists b1,
       forallb quiet b1 = true /\
       before = b1 ++ [EvWriteFile (IDPath pod (Name container))
                         ("pid://" +:+ strconv_Itoa (os_Getpid h));
                       EvLog "debug" "ApptainerArgs";
                       EvCreate (LogsPath pod (Name container))]) /\
    (exists code rest, after = EvTerminated Init i code :: rest /\ forallb quiet rest = true).

(** The goroutine [t] is the one that [handleContainers] creates for the
    main container [container] at index [i]. *)
Definition launchedFor (h : Host) (pod : Pod) (hpkEnv isDebug : bool)
    (i : nat) (container : Container) (t : Task) : Prop :=
  taskIndex t = i /\ taskContainer t = container /\
  exists present,
    (forall s0, fileExists h (EnvFilePath pod (Name container)) s0 = (Ret present, s0, [])) /\
    taskArgs t = mainApptainerArgs isDebug hpkEnv
                   (fst (DetermineEffectiveRunAsUser h pod container))
                   (snd (DetermineEffectiveRunAsUser h pod container))
                   present (imagePathOf h pod container) pod container.

(** The goroutines [ts] are those of the containers [containers], one for
    each and in their order, with indices counted from [i]. *)
Fixpoint goroutinesFor (h : Host) (pod : Pod) (hpkEnv isDebug : bool)
    (i : nat) (containers : list Container) (ts : list Task) : Prop :=
  match containers, ts with
  | [], [] => True
  | container :: containers', t :: ts' =>
      launchedFor h pod hpkEnv isDebug i container t /\
      goroutinesFor h pod hpkEnv isDebug (S i) containers' ts'
  | _, _ => False
  end.

(** The host [h] with other answers of [stat], [os.Create] and the shell. *)
Definition withFiles (h : Host) (stat : string -> StatResult)
    (createErr : string -> error) (shell : string -> string * error) : Host :=
  {| flag_pod := flag_pod h; flag_namespace := flag_namespace h;
     BuildConfigFromFlags_err := BuildConfigFromFlags_err h;
     NewForConfig_err := NewForConfig_err h;
     api_latency := api_latency h; api_reply := api_reply h;
     os_Environ := os_Environ h;
     os_Stat := stat;
     os_MkdirAll_err := os_MkdirAll_err h;
     os_WriteFile_err := os_WriteFile_err h;
     os_Create_err := createErr;
     os_Hostname := os_Hostname h;
     net_InterfaceAddrs := net_InterfaceAddrs h;
     os_Getpid := os_Getpid h;
     sh_CombinedOutput := shell;
     apptainer := apptainer h;
     preempt := preempt h;
     DetermineEffectiveRunAsUser := DetermineEffectiveRunAsUser h;
     ParseImageName := ParseImageName h;
     ImageDir := ImageDir h |}.

(* ===================================================================== *)
(** * fileExists *)
(* ===================================================================== *)

Lemma fileExists_pure (h : Host) (filename : string) (s : State) :
  exists r, fileExists h filename s = (r, s, []).
Proof.
  unfold fileExists.
  destruct (String.eqb filename ""); [eexists; reflexivity|].
  destruct (os_Stat h filename) as [info|err]; [eexists; reflexivity|].
  destruct (os_IsNotExist err); eexists; reflexivity.
Qed.

(** C10: [fileExists] is false for the empty name and for a missing path,
    true exactly for an existing path that is not a directory, and panics
    (ending the process with status 2) on any other failure of [stat]; it
    returns a value exactly when the name is empty or the failure of
    [stat], if any, is a not-exist error. *)
Theorem fileExists_spec (h : Host) (filename : string) (s : State) :
  fileExists h "" s = (Ret false, s, []) /\
  (filename <> "" ->
   forall err, os_Stat h filename = StatError err -> os_IsNotExist err = true ->
     fileExists h filename s = (Ret false, s, [])) /\
  (fileExists h filename s = (Ret true, s, []) <->
   filename <> "" /\ exists info, os_Stat h filename = StatInfo info /\ IsDir info = false) /\
  (filename <> "" ->
   forall err, os_Stat h filename = StatError err -> os_IsNotExist err = false ->
     fileExists h filename s = (Panic "stat", s, []) /\
     exitStatus (fst (fst (fileExists h filename s))) = Some 2) /\
  ((exists b, fileExists h filename s = (Ret b, s, [])) <->
   filename = "" \/
   forall err, os_Stat h filename = StatError err -> os_IsNotExist err = true).
Proof.
  unfold fileExists.
  split; [reflexivity|].
  destruct (String.eqb_spec filename "") as [Heq|Hne].
  - subst. split_and!.
    + congruence.
    + split; [intros H; discriminate H | intros [H _]; congruence].
    + congruence.
    + split; [intros _; now left | intros _; now exists false].
  - destruct (os_Stat h filename) as [[dir]|err] eqn:Hstat.
    + split_and!.
      * intros _ err H; discriminate H.
      * split.
        -- intros H. split; [assumption|]. exists {| IsDir := dir |}.
           split; [reflexivity|]. simpl. destruct dir; [discriminate H|reflexivity].
        -- intros [_ [info [Hinfo Hdir]]]. injection Hinfo as <-. simpl in Hdir.
           simpl. now rewrite Hdir.
      * intros _ err H; discriminate H.
      * split; [intros _; right; intros err H; discriminate H
               | intros _; eexists; reflexivity].
    + split_and!.
      * intros _ err' [= <-] ->. reflexivity.
      * split.
        -- destruct (os_IsNotExist err); intros H; discriminate H.
        -- intros [_ [info [Hinfo _]]]; discriminate Hinfo.
      * intros _ err' [= <-] ->. split; reflexivity.
      * split.
        -- intros [b Hb]. right. intros err' [= <-].
           destruct (os_IsNotExist err); [reflexivity|discriminate Hb].
        -- intros [Hempty|Hall]; [contradiction|].
           rewrite (Hall err eq_refl). now exists false.
Qed.

(* ===================================================================== *)
(** * The argument vector *)
(* ===================================================================== *)

Lemma securityStep_app (uid gid : Z) (l : list string) :
  securityStep uid gid l =
  l ++ (if uid =? 0 then [] else uidOverride uid) ++ (if gid =? 0 then [] else gidOverride gid).
Proof.
  unfold securityStep, uidOverride, gidOverride.
  destruct (uid =? 0), (gid =? 0); rewrite <- ?app_assoc, ?app_nil_r; reflexivity.
Qed.

Lemma tailStep_app (present : bool) (pod : Pod) (imagePath : string) (container : Container)
    (l : list string) :
  tailStep present pod imagePath container l = l ++ tailStep present pod imagePath container [].
Proof.
  unfold tailStep. destruct present; rewrite <- ?app_assoc; reflexivity.
Qed.

Lemma length_bindsOf (pod : Pod) (container : Container) :
  length (bindsOf pod container) = length (VolumeMounts container).
Proof. unfold bindsOf. apply length_map. Qed.

Lemma bindsOf_nonempty (pod : Pod) (container : Container) :
  VolumeMounts container <> [] -> (0 <? length (bindsOf pod container))%nat = true.
Proof.
  intros H. rewrite length_bindsOf. destruct (VolumeMounts container); [congruence|reflexivity].
Qed.

(** The six leading arguments are never touched by the bind step. *)
Lemma initBindStep_fixed (isDebug hpkEnv : bool) (binds : list string) (container : Container) :
  exists rest,
    initBindStep hpkEnv binds (fixedArgs isDebug container) =
    [if isDebug then "--debug" else "--quiet"; executionMode container; "--cleanenv";
     "--writable-tmpfs"; "--no-mount"; "home"] ++ rest /\
    ~ In "--security" rest.
Proof.
  unfold initBindStep, fixedArgs, appendToLast.
  destruct hpkEnv, (0 <? length binds)%nat; simpl; eexists; (split; [reflexivity|]);
    simpl; intuition discriminate.
Qed.

Lemma mainBindStep_fixed (isDebug hpkEnv : bool) (binds : list string) (container : Container) :
  exists rest,
    mainBindStep hpkEnv binds (fixedArgs isDebug container) =
    [if isDebug then "--debug" else "--quiet"; executionMode container; "--cleanenv";
     "--writable-tmpfs"; "--no-mount"; "home"] ++ rest /\
    ~ In "--security" rest.
Proof.
  unfold mainBindStep, fixedArgs, appendToLast.
  destruct hpkEnv, (0 <? length binds)%nat; simpl; eexists; (split; [reflexivity|]);
    simpl; intuition discriminate.
Qed.

Lemma executionMode_values (container : Container) :
  executionMode container <> "--security".
Proof. unfold executionMode. destruct (Command container); discriminate. Qed.

(** C6, as stated, fails: a command slice that is allocated but empty is
    not nil, and the runtime is passed [exec]. *)
Lemma executionMode_empty_command :
  let container := demoContainer "c" (Some []) in
  let pod := demoPod [container] [container] in
  elems (Command container) = [] /\
  initApptainerArgs false true 0 0 false "/work/images/busybox" pod container !! 1%nat
    <> Some (modeByEmptiness container) /\
  mainApptainerArgs false true 0 0 false "/work/images/busybox" pod container !! 1%nat
    <> Some (modeByEmptiness container).
Proof. split; [reflexivity|]. split; vm_compute; discriminate. Qed.

(** C6, amended: for every container, in both launcher functions, the
    execution mode passed to the runtime is [exec] exactly when the command
    slice is not nil, in particular whenever the command is non-empty, and
    [run] exactly when it is nil. *)
Theorem executionMode_by_nil (isDebug hpkEnv : bool) (uid gid : Z) (present : bool)
    (imagePath : string) (pod : Pod) (container : Container) :
  exists mode,
    initApptainerArgs isDebug hpkEnv uid gid present imagePath pod container !! 1%nat = Some mode /\
    mainApptainerArgs isDebug hpkEnv uid gid present imagePath pod container !! 1%nat = Some mode /\
    (mode = "exec" <-> Command container <> None) /\
    (mode = "run" <-> Command container = None) /\
    (elems (Command container) <> [] -> mode = "exec").
Proof.
  exists (executionMode container).
  unfold initApptainerArgs, mainApptainerArgs.
  destruct (initBindStep_fixed isDebug hpkEnv (bindsOf pod container) container) as [ri [-> _]].
  destruct (mainBindStep_fixed isDebug hpkEnv (bindsOf pod container) container) as [rm [-> _]].
  rewrite !(tailStep_app _ _ _ _ (securityStep _ _ _)), !securityStep_app.
  split; [reflexivity|]. split; [reflexivity|].
  unfold executionMode. destruct (Command container) as [l|]; simpl.
  - split_and!; [split; congruence | split; [discriminate | congruence] | reflexivity].
  - split_and!; [split; [discriminate | congruence] | split; congruence | congruence].
Qed.

(** C8: in both launcher functions the argument vector is a part that does
    not depend on the ids and holds no [--security], then
    [--security uid:<u>,gid:<u> --userns] if the uid is not 0, then
    [--security gid:<g> --userns] if the gid is not 0, then a part that does
    not depend on the ids; a zero uid or gid contributes nothing. *)
Theorem security_overrides (isDebug hpkEnv present : bool) (imagePath : string)
    (pod : Pod) (container : Container) :
  (exists before after,
     ~ In "--security" before /\
     forall uid gid,
       initApptainerArgs isDebug hpkEnv uid gid present imagePath pod container =
       before ++ (if uid =? 0 then [] else uidOverride uid)
              ++ (if gid =? 0 then [] else gidOverride gid) ++ after) /\
  (exists before after,
     ~ In "--security" before /\
     forall uid gid,
       mainApptainerArgs isDebug hpkEnv uid gid present imagePath pod container =
       before ++ (if uid =? 0 then [] else uidOverride uid)
              ++ (if gid =? 0 then [] else gidOverride gid) ++ after).
Proof.
  split.
  - destruct (initBindStep_fixed isDebug hpkEnv (bindsOf pod container) container)
      as [rest [Heq Hrest]].
    exists (initBindStep hpkEnv (bindsOf pod container) (fixedArgs isDebug container)),
           (tailStep present pod imagePath container []).
    split.
    + rewrite Heq. intros Hin. apply in_app_or in Hin as [Hin|Hin]; [|tauto].
      pose proof (executionMode_values container).
      destruct isDebug; simpl in Hin; intuition (discriminate || congruence).
    + intros uid gid. unfold initApptainerArgs.
      rewrite (tailStep_app _ _ _ _ (securityStep _ _ _)), securityStep_app, <- !app_assoc.
      reflexivity.
  - destruct (mainBindStep_fixed isDebug hpkEnv (bindsOf pod container) container)
      as [rest [Heq Hrest]].
    exists (mainBindStep hpkEnv (bindsOf pod container) (fixedArgs isDebug container)),
           (tailStep present pod imagePath container []).
    split.
    + rewrite Heq. intros Hin. apply in_app_or in Hin as [Hin|Hin]; [|tauto].
      pose proof (executionMode_values container).
      destruct isDebug; simpl in Hin; intuition (discriminate || congruence).
    + intros uid gid. unfold mainApptainerArgs.
      rewrite (tailStep_app _ _ _ _ (securityStep _ _ _)), securityStep_app, <- !app_assoc.
      reflexivity.
Qed.

(** C9: with a non-empty list of volume mounts, [handleInitContainers]
    extends the last argument built so far whatever [hpkEnv] is, so the
    binds end up on [--unsquash] when [hpkEnv] is false and on the value of
    [--bind] when it is true; [handleContainers] extends the value of
    [--bind] when [hpkEnv] is true and ignores the volume mounts when it is
    false. *)
Theorem bind_list_placement (isDebug : bool) (uid gid : Z) (present : bool)
    (imagePath : string) (pod : Pod) (container : Container) :
  VolumeMounts container <> [] ->
  let head := [if isDebug then "--debug" else "--quiet"; executionMode container;
               "--cleanenv"; "--writable-tmpfs"; "--no-mount"; "home"] in
  let joined := "," +:+ strings_Join (bindsOf pod container) "," in
  let rest := securityStep uid gid [] ++ tailStep present pod imagePath container [] in
  initApptainerArgs isDebug false uid gid present imagePath pod container =
    head ++ ["--unsquash" +:+ joined] ++ rest /\
  initApptainerArgs isDebug true uid gid present imagePath pod container =
    head ++ ["--unsquash"; "--bind"; dnsBind +:+ joined] ++ rest /\
  mainApptainerArgs isDebug true uid gid present imagePath pod container =
    head ++ ["--unsquash"; "--bind"; dnsBind +:+ joined] ++ rest /\
  mainApptainerArgs isDebug false uid gid present imagePath pod container =
    head ++ ["--unsquash"] ++ rest /\
  mainApptainerArgs isDebug false uid gid present imagePath pod container =
    mainApptainerArgs isDebug false uid gid present imagePath pod
      {| Name := Name container; Image := Image container; Command := Command container;
         Args := Args container; VolumeMounts := [] |}.
Proof.
  intros Hne head joined rest. subst head joined rest.
  unfold initApptainerArgs, mainApptainerArgs, initBindStep, mainBindStep.
  rewrite (bindsOf_nonempty pod container Hne).
  rewrite !(tailStep_app _ _ _ _ (securityStep _ _ _)).
  rewrite !(securityStep_app uid gid (appendToLast _ _)).
  rewrite !(securityStep_app uid gid (fixedArgs _ _)).
  rewrite (securityStep_app uid gid []).
  split_and!; unfold fixedArgs, appendToLast, tailStep, executionMode, instanceName;
    simpl; rewrite <- ?app_assoc; reflexivity.
Qed.

Lemma bind_list_placement_witness :
  let container :=
    {| Name := "app"; Image := "busybox"; Command := None; Args := [];
       VolumeMounts := [ {| MountName := "data"; MountPath := "/data"; ReadOnly := true |} ] |} in
  let pod := demoPod [container] [container] in
  initApptainerArgs false false 0 0 false "/work/images/busybox" pod container !! 6%nat =
    Some "--unsquash,/work/default/demo/volumes/data:/data:ro" /\
  mainApptainerArgs false false 0 0 false "/work/images/busybox" pod container !! 6%nat =
    Some "--unsquash".
Proof.
  intros container pod.
  assert (Hne : VolumeMounts container <> []) by discriminate.
  destruct (bind_list_placement false 0 0 false "/work/images/busybox" pod container Hne)
    as (Hinit & _ & _ & Hmain & _).
  rewrite Hinit, Hmain. split; reflexivity.
Defined.

(* ===================================================================== *)
(** * The resolver file *)
(* ===================================================================== *)

Lemma append_cons (x : ascii) (a b : string) : String x a +:+ b = String x (a +:+ b).
Proof. reflexivity. Qed.

Lemma append_nil (b : string) : "" +:+ b = b.
Proof. reflexivity. Qed.

Lemma append_assoc (a b c : string) : (a +:+ b) +:+ c = a +:+ (b +:+ c).
Proof.
  induction a as [|x a IH]; rewrite ?append_nil, ?append_cons; [reflexivity | now rewrite IH].
Qed.

Lemma noChar_app (c : ascii) (a b : string) :
  noChar c (a +:+ b) = noChar c a && noChar c b.
Proof.
  induction a as [|x a IH]; rewrite ?append_nil, ?append_cons; simpl; [reflexivity|].
  rewrite IH. now rewrite andb_assoc.
Qed.

Lemma noSpace_app (a b : string) : noSpace (a +:+ b) = noSpace a && noSpace b.
Proof.
  induction a as [|x a IH]; rewrite ?append_nil, ?append_cons; simpl; [reflexivity|].
  rewrite IH. now rewrite andb_assoc.
Qed.

Lemma noSpace_noNewline (s : string) : noSpace s = true -> noChar "010" s = true.
Proof.
  induction s as [|x s IH]; simpl; [reflexivity|].
  intros H. apply andb_prop in H as [Hx Hs]. rewrite (IH Hs), andb_true_r.
  unfold isSpace in Hx. destruct (Ascii.eqb x "010"); [|reflexivity].
  rewrite !orb_true_r in Hx. simpl in Hx. rewrite ?orb_true_r in Hx. discriminate Hx.
Qed.

Lemma splitOn_whole (sep : ascii) (a : string) : noChar sep a = true -> splitOn sep a = [a].
Proof.
  induction a as [|x a IH]; simpl; [reflexivity|].
  intros H. apply andb_prop in H as [Hx Ha].
  destruct (Ascii.eqb x sep); [discriminate Hx|]. now rewrite (IH Ha).
Qed.

Lemma splitOn_app (sep : ascii) (a b : string) :
  noChar sep a = true -> splitOn sep (a +:+ String sep b) = a :: splitOn sep b.
Proof.
  induction a as [|x a IH]; rewrite ?append_nil, ?append_cons; simpl.
  - intros _. now rewrite Ascii.eqb_refl.
  - intros H. apply andb_prop in H as [Hx Ha].
    destruct (Ascii.eqb x sep); [discriminate Hx|]. now rewrite (IH Ha).
Qed.

Lemma fields_head (x : ascii) (s : string) : isSpace x = false -> fields (String x s) <> [].
Proof.
  intros Hx. simpl. rewrite Hx. destruct s as [|y s]; [discriminate|].
  destruct (isSpace y); [discriminate|]. destruct (fields (String y s)); discriminate.
Qed.

Lemma fields_app_space (c : ascii) (a b : string) :
  isSpace c = true -> fields (a +:+ String c b) = fields a ++ fields b.
Proof.
  intros Hc. induction a as [|x a IH].
  - rewrite append_nil. simpl. now rewrite Hc.
  - change (String x a +:+ String c b) with (String x (a +:+ String c b)).
    cbn [fields]. destruct (isSpace x) eqn:Hx; [exact IH|].
    destruct a as [|y a].
    + rewrite append_nil. simpl. now rewrite Hc.
    + change (String y a +:+ String c b) with (String y (a +:+ String c b)) in *.
      rewrite IH.
      destruct (isSpace y) eqn:Hy; [reflexivity|].
      pose proof (fields_head y a Hy) as Hne.
      destruct (fields (String y a)) as [|tok toks]; [congruence|reflexivity].
Qed.

Lemma fields_token (t : string) : t <> "" -> noSpace t = true -> fields t = [t].
Proof.
  induction t as [|x t IH]; [congruence|].
  intros _ H. simpl in H. apply andb_prop in H as [Hx Ht].
  apply negb_true_iff in Hx. cbn [fields]. rewrite Hx.
  destruct t as [|y t]; [reflexivity|].
  assert (Hy : isSpace y = false).
  { simpl in Ht. apply andb_prop in Ht as [Hy _]. now apply negb_true_iff in Hy. }
  rewrite Hy, IH; [reflexivity | discriminate | assumption].
Qed.

Lemma resolvConfContent_lines (namespace kubeDNSIP : string) :
  noSpace namespace = true -> noSpace kubeDNSIP = true ->
  splitOn "010" (resolvConfContent namespace kubeDNSIP) =
  [searchLine namespace; nameserverLine kubeDNSIP; optionsLine].
Proof.
  intros Hns Hip.
  assert (Heq : resolvConfContent namespace kubeDNSIP =
                searchLine namespace +:+
                String "010" (nameserverLine kubeDNSIP +:+ String "010" optionsLine)).
  { unfold resolvConfContent, searchLine, nameserverLine, optionsLine.
    rewrite !append_assoc. reflexivity. }
  rewrite Heq, splitOn_app, splitOn_app, splitOn_whole; [reflexivity|reflexivity| |].
  - unfold nameserverLine. rewrite !noChar_app, (noSpace_noNewline _ Hip). reflexivity.
  - unfold searchLine. rewrite !noChar_app, (noSpace_noNewline _ Hns). reflexivity.
Qed.

Lemma fields_searchLine (namespace : string) :
  noSpace namespace = true ->
  fields (searchLine namespace) =
  ["search"; namespace +:+ ".svc.cluster.local"; "svc.cluster.local"; "cluster.local"].
Proof.
  intros Hns.
  assert (Heq : searchLine namespace =
                "search" +:+ String " " ((namespace +:+ ".svc.cluster.local") +:+
                                         String " " "svc.cluster.local cluster.local")).
  { unfold searchLine. rewrite append_assoc. reflexivity. }
  rewrite Heq, !fields_app_space by reflexivity.
  rewrite (fields_token (namespace +:+ _)).
  - reflexivity.
  - destruct namespace; discriminate.
  - rewrite noSpace_app, Hns. reflexivity.
Qed.

Lemma fields_nameserverLine (kubeDNSIP : string) :
  kubeDNSIP <> "" -> noSpace kubeDNSIP = true ->
  fields (nameserverLine kubeDNSIP) = ["nameserver"; kubeDNSIP].
Proof.
  intros Hne Hip.
  change (nameserverLine kubeDNSIP) with (String "009" ("nameserver" +:+ String " " kubeDNSIP)).
  change (fields (String "009" ?s)) with (fields s).
  rewrite fields_app_space by reflexivity.
  rewrite (fields_token kubeDNSIP Hne Hip). reflexivity.
Qed.

(** The indentation of the raw string literal is part of the file: the
    [nameserver] line starts with a tab. *)
Lemma nameserverLine_indented (namespace kubeDNSIP : string) :
  noSpace namespace = true -> noSpace kubeDNSIP = true ->
  splitOn "010" (resolvConfContent namespace kubeDNSIP) !! 1%nat =
  Some (String "009" ("nameserver " +:+ kubeDNSIP)).
Proof. intros Hns Hip. now rewrite resolvConfContent_lines. Qed.

(** For every namespace and address without white space, the file of
    [prepareDNS] has its [search] line and no [nameserver] line: the only
    line that holds the word starts with the tab. *)
Lemma resolvConfContent_keywords (namespace kubeDNSIP : string) :
  noSpace namespace = true -> noSpace kubeDNSIP = true ->
  keywordLines "nameserver" (resolvConfContent namespace kubeDNSIP) = [] /\
  keywordLines "options" (resolvConfContent namespace kubeDNSIP) = [] /\
  keywordLines "search" (resolvConfContent namespace kubeDNSIP) =
    [["search"; namespace +:+ ".svc.cluster.local"; "svc.cluster.local"; "cluster.local"]].
Proof.
  intros Hns Hip. unfold keywordLines.
  rewrite (resolvConfContent_lines _ _ Hns Hip).
  assert (Hfirst : List.filter inFirstColumn
                     [searchLine namespace; nameserverLine kubeDNSIP; optionsLine] =
                   [searchLine namespace]) by reflexivity.
  rewrite Hfirst. cbn [map]. rewrite (fields_searchLine _ Hns). auto.
Qed.

Lemma resolvConfContent_not_synthesis (namespace kubeDNSIP : string) :
  noSpace namespace = true -> noSpace kubeDNSIP = true ->
  ~ dnsSynthesis namespace kubeDNSIP (resolvConfContent namespace kubeDNSIP).
Proof.
  intros Hns Hip [H _].
  destruct (resolvConfContent_keywords _ _ Hns Hip) as [Hnone _].
  rewrite Hnone in H. discriminate H.
Qed.

(** The here-document of the script template has the property. *)
Lemma handle_dns_synthesis (namespace kubeDNS : string) :
  noSpace namespace = true -> kubeDNS <> "" -> noSpace kubeDNS = true ->
  dnsSynthesis namespace kubeDNS (handle_dns namespace kubeDNS).
Proof.
  intros Hns Hne Hip.
  assert (Hlines : splitOn "010" (handle_dns namespace kubeDNS) =
                   [searchLine namespace; "nameserver " +:+ kubeDNS; "options ndots:5"; ""]).
  { assert (Heq : handle_dns namespace kubeDNS =
                  searchLine namespace +:+
                  String "010" (("nameserver " +:+ kubeDNS) +:+
                                String "010" ("options ndots:5" +:+ String "010" ""))).
    { unfold handle_dns, searchLine, newline. rewrite !append_assoc. reflexivity. }
    rewrite Heq, splitOn_app, splitOn_app, splitOn_app; [reflexivity|reflexivity| |].
    - rewrite noChar_app, (noSpace_noNewline _ Hip). reflexivity.
    - unfold searchLine. rewrite !noChar_app, (noSpace_noNewline _ Hns). reflexivity. }
  assert (Hfirst : List.filter inFirstColumn
                     [searchLine namespace; "nameserver " +:+ kubeDNS; "options ndots:5"; ""] =
                   [searchLine namespace; "nameserver " +:+ kubeDNS; "options ndots:5"])
    by reflexivity.
  assert (Hns_fields : fields ("nameserver " +:+ kubeDNS) = ["nameserver"; kubeDNS]).
  { change ("nameserver " +:+ kubeDNS) with ("nameserver" +:+ String " " kubeDNS).
    rewrite fields_app_space by reflexivity.
    rewrite (fields_token kubeDNS Hne Hip). reflexivity. }
  unfold dnsSynthesis, keywordLines. rewrite Hlines, Hfirst. cbn [map].
  rewrite (fields_searchLine _ Hns), Hns_fields.
  split; [reflexivity|]. eexists. reflexivity.
Qed.

(* ===================================================================== *)
(** * Reasoning about computations *)
(* ===================================================================== *)

Lemma bind_inv {A B : Type} (m : M A) (k : A -> M B) (s : State)
    (r : Res B) (s' : State) (evs : list Event) :
  bind m k s = (r, s', evs) ->
  (exists a s1 e1 e2, m s = (Ret a, s1, e1) /\ k a s1 = (r, s', e2) /\ evs = e1 ++ e2) \/
  (exists r0, m s = (r0, s', evs) /\ isRet r0 = false /\ r = abort r0).
Proof.
  unfold bind. destruct (m s) as [[r0 s1] e1]. destruct r0 as [a|msg|code| |].
  - destruct (k a s1) as [[r2 s2] e2] eqn:Hk. intros [= <- <- <-].
    left. exists a, s1, e1, e2. auto.
  - intros [= <- <- <-]. right. eexists. eauto.
  - intros [= <- <- <-]. right. eexists. eauto.
  - intros [= <- <- <-]. right. eexists. eauto.
  - intros [= <- <- <-]. right. eexists. eauto.
Qed.

Lemma abort_not_Ret {A B : Type} (r0 : Res A) (b : B) : isRet r0 = false -> abort r0 <> Ret b.
Proof. destruct r0; simpl; congruence. Qed.

Lemma emits_ret {A : Type} (P : Event -> bool) (a : A) : emits P (ret a).
Proof. intros s r s' evs [= <- <- <-]. reflexivity. Qed.

Lemma emits_bind {A B : Type} (P : Event -> bool) (m : M A) (k : A -> M B) :
  emits P m -> (forall a, emits P (k a)) -> emits P (bind m k).
Proof.
  intros Hm Hk s r s' evs H.
  apply bind_inv in H as [(a & s1 & e1 & e2 & H1 & H2 & ->)|(r0 & H1 & _ & _)].
  - rewrite forallb_app, (Hm _ _ _ _ H1), (Hk _ _ _ _ _ H2). reflexivity.
  - exact (Hm _ _ _ _ H1).
Qed.

Lemma emits_emit (P : Event -> bool) (e : Event) : P e = true -> emits P (emit e).
Proof. intros He s r s' evs [= <- <- <-]. simpl. now rewrite He. Qed.

Lemma emits_panic {A : Type} (P : Event -> bool) (msg : string) : emits P (@panic A msg).
Proof. intros s r s' evs [= <- <- <-]. reflexivity. Qed.

Lemma emits_os_Exit {A : Type} (P : Event -> bool) (code : Z) : emits P (@os_Exit A code).
Proof. intros s r s' evs [= <- <- <-]. reflexivity. Qed.

Lemma emits_blocked {A : Type} (P : Event -> bool) : emits P (@blocked A).
Proof. intros s r s' evs [= <- <- <-]. reflexivity. Qed.

Lemma emits_os_Getenv (P : Event -> bool) (name : string) : emits P (os_Getenv name).
Proof. intros s r s' evs [= <- <- <-]. reflexivity. Qed.

Lemma emits_getGoroutines (P : Event -> bool) : emits P getGoroutines.
Proof. intros s r s' evs [= <- <- <-]. reflexivity. Qed.

Lemma emits_setGoroutines (P : Event -> bool) gs : emits P (setGoroutines gs).
Proof. intros s r s' evs [= <- <- <-]. reflexivity. Qed.

Lemma emits_storeFile (P : Event -> bool) (path content : string) (e : Event) :
  P e = true -> emits P (storeFile path content e).
Proof. intros He s r s' evs [= <- <- <-]. simpl. now rewrite He. Qed.

Lemma emits_os_Unsetenv (P : Event -> bool) (name : string) :
  P (EvUnsetenv name) = true -> emits P (os_Unsetenv name).
Proof. intros He s r s' evs [= <- <- <-]. simpl. now rewrite He. Qed.

Lemma emits_fileExists (P : Event -> bool) (h : Host) (filename : string) :
  emits P (fileExists h filename).
Proof.
  intros s r s' evs H. destruct (fileExists_pure h filename s) as [r0 H0].
  rewrite H0 in H. injection H as <- <- <-. reflexivity.
Qed.

Create HintDb emits.
#[local] Hint Resolve emits_ret emits_panic emits_os_Exit emits_blocked emits_os_Getenv
  emits_getGoroutines emits_setGoroutines emits_fileExists : emits.

(** One step through the structure of a computation. *)
Ltac emits_step :=
  match goal with
  | |- emits _ (bind _ _) => apply emits_bind; [|intros ?]
  | |- emits _ (emit _) => apply emits_emit; reflexivity
  | |- emits _ (log _ _) => apply emits_emit; reflexivity
  | |- emits _ (storeFile _ _ _) => apply emits_storeFile; reflexivity
  | |- emits _ (os_Unsetenv _) => apply emits_os_Unsetenv; reflexivity
  | |- emits _ (match ?x with _ => _ end) => destruct x
  | |- emits _ _ => solve [auto with emits]
  end.

Ltac emits_auto := repeat emits_step.

Lemma emits_os_WriteFile (h : Host) (path content : string) :
  emits quiet (os_WriteFile h path content) /\ emits notInit (os_WriteFile h path content).
Proof. unfold os_WriteFile. split; emits_auto. Qed.

Lemma emits_os_Create (h : Host) (path : string) :
  emits quiet (os_Create h path) /\ emits notInit (os_Create h path).
Proof. unfold os_Create. split; emits_auto. Qed.

Lemma quiet_os_WriteFile h path content : emits quiet (os_WriteFile h path content).
Proof. apply emits_os_WriteFile. Qed.
Lemma notInit_os_WriteFile h path content : emits notInit (os_WriteFile h path content).
Proof. apply emits_os_WriteFile. Qed.
Lemma quiet_os_Create h path : emits quiet (os_Create h path).
Proof. apply emits_os_Create. Qed.
Lemma notInit_os_Create h path : emits notInit (os_Create h path).
Proof. apply emits_os_Create. Qed.
#[local] Hint Resolve quiet_os_WriteFile notInit_os_WriteFile quiet_os_Create
  notInit_os_Create : emits.

Lemma quiet_os_MkdirAll h path : emits quiet (os_MkdirAll h path).
Proof. unfold os_MkdirAll. emits_auto. Qed.
#[local] Hint Resolve quiet_os_MkdirAll : emits.

Lemma quiet_prepareDNS h pod : emits quiet (prepareDNS h pod).
Proof. unfold prepareDNS, DebugDNSInfo. emits_auto. Qed.

Lemma quiet_announceIP h pod : emits quiet (announceIP h pod).
Proof. unfold announceIP. emits_auto. Qed.

Lemma quiet_unsetAll names : emits quiet (unsetAll names).
Proof. induction names as [|name rest IH]; simpl; emits_auto. Qed.

Lemma quiet_prepareContainers h pod : emits quiet (prepareContainers h pod).
Proof.
  pose proof (quiet_prepareDNS h pod). pose proof (quiet_announceIP h pod).
  pose proof (quiet_unsetAll envVars).
  unfold prepareContainers, cleanEnvironment. emits_auto.
Qed.

Lemma evaluateEnvFile_emits h pod container :
  emits quiet (evaluateEnvFile h pod container) /\
  emits notInit (evaluateEnvFile h pod container).
Proof. unfold evaluateEnvFile. split; emits_auto. Qed.

Lemma quiet_evaluateEnvFile h pod container : emits quiet (evaluateEnvFile h pod container).
Proof. apply evaluateEnvFile_emits. Qed.
Lemma notInit_evaluateEnvFile h pod container : emits notInit (evaluateEnvFile h pod container).
Proof. apply evaluateEnvFile_emits. Qed.
#[local] Hint Resolve quiet_evaluateEnvFile notInit_evaluateEnvFile : emits.

(** C7: on a host with [KUBEDNS_IP=10.96.0.10], for the pod [demo] of the
    namespace [default], [prepareDNS] succeeds and writes a resolver file
    that has its [search] line, with [default.svc.cluster.local] first, but
    no [nameserver] line at all: the line that holds the address starts
    with the tab that indents the raw string literal in the source, so the
    file does not have the property of the claim, which the here-document
    of the script template, with every keyword in the first column, has. *)
Theorem resolv_conf_nameserver_indented :
  let pod := demoPod [] [demoContainer "web" None] in
  let h := demoHost pod dnsEnv (fun _ _ _ => Runs 8 0) in
  let run := prepareDNS h pod (initialState h) in
  let content :=
    "search default.svc.cluster.local svc.cluster.local cluster.local" +:+ newline +:+
    tab +:+ "nameserver 10.96.0.10" +:+ newline +:+
    tab +:+ "options ndots:5" in
  resultOf run = Ret None /\
  files (stateOf run) !! "/scratch/etc/resolv.conf" = Some content /\
  keywordLines "nameserver" content = [] /\
  ~ dnsSynthesis "default" "10.96.0.10" content /\
  keywordLines "search" content =
    [["search"; "default.svc.cluster.local"; "svc.cluster.local"; "cluster.local"]] /\
  dnsSynthesis "default" "10.96.0.10" (handle_dns "default" "10.96.0.10").
Proof.
  intros pod h run content.
  assert (Hcontent : content = resolvConfContent "default" "10.96.0.10") by reflexivity.
  destruct (resolvConfContent_keywords "default" "10.96.0.10" eq_refl eq_refl)
    as (Hnameserver & _ & Hsearch).
  rewrite Hcontent. split_and!.
  - vm_compute. reflexivity.
  - vm_compute. reflexivity.
  - exact Hnameserver.
  - exact (resolvConfContent_not_synthesis "default" "10.96.0.10" eq_refl eq_refl).
  - exact Hsearch.
  - apply handle_dns_synthesis; [reflexivity|discriminate|reflexivity].
Qed.

(* ===================================================================== *)
(** * Pod acquisition *)
(* ===================================================================== *)

Lemma pollTook_bounds (h : Host) (n : nat) : 0 <= pollTook h n <= 10 * time_Second.
Proof.
  unfold pollTook, rpcTimeout, time_Second.
  destruct (Z.leb_spec (10 * 1000000000) (Z.of_N (api_latency h n))); lia.
Qed.

Lemma getPodDetails_eq (h : Host) (s : State) :
  getPodDetails h (flag_namespace h) (flag_pod h) s =
  (Ret (pollReply h (gets s)),
   {| environ := environ s; files := files s; now := now s + pollTook h (gets s);
      gets := S (gets s); goroutines := goroutines s |},
   [EvGet (gets s) (pollTook h (gets s))]).
Proof. reflexivity. Qed.

(** One iteration of the loop. *)
Lemma acquire_pod_loop_step (h : Host) (fuel : nat) (deadline : Duration) (s : State) :
  acquire_pod_loop h (S fuel) deadline s =
  if deadline <=? now s then (Exit 1, s, [EvLog "error" "Timeout reached. Exiting."])
  else
    let s1 := {| environ := environ s; files := files s; now := now s + pollTook h (gets s);
                 gets := S (gets s); goroutines := goroutines s |} in
    match pollReply h (gets s) with
    | Some _ => (Ret tt, s1, [EvGet (gets s) (pollTook h (gets s))])
    | None =>
        let s2 := {| environ := environ s; files := files s;
                     now := now s + pollTook h (gets s) + retryInterval;
                     gets := S (gets s); goroutines := goroutines s |} in
        match acquire_pod_loop h fuel deadline s2 with
        | (r, s', evs) => (r, s', failedPolls h (gets s) 1 ++ evs)
        end
    end.
Proof.
  cbn [acquire_pod_loop]. unfold bind at 1. unfold time_Now at 1. cbv iota beta.
  destruct (deadline <=? now s); [reflexivity|].
  unfold bind at 1. rewrite getPodDetails_eq.
  destruct (pollReply h (gets s)); [reflexivity|].
  unfold bind, log, emit, time_Sleep. cbv iota beta. cbn [now gets environ files goroutines].
  destruct (acquire_pod_loop h fuel deadline _) as [[r s'] evs]. reflexivity.
Qed.

Lemma acquire_pod_loop_spec (h : Host) (fuel : nat) (deadline : Duration) :
  forall s : State,
  (1 <= fuel)%nat ->
  deadline - now s <= retryInterval * (Z.of_nat fuel - 1) ->
  exists k : nat,
    (k < fuel)%nat /\
    (k = 0%nat \/ retryInterval * (Z.of_nat k - 1) < deadline - now s) /\
    (forall j, (j < k)%nat -> pollReply h (gets s + j)%nat = None) /\
    let run := acquire_pod_loop h fuel deadline s in
    (resultOf run = Exit 1 /\
     eventsOf run = failedPolls h (gets s) k ++ [EvLog "error" "Timeout reached. Exiting."] /\
     deadline <= now (stateOf run))
    \/
    (resultOf run = Ret tt /\
     (exists pod, pollReply h (gets s + k)%nat = Some pod) /\
     eventsOf run =
       failedPolls h (gets s) k ++ [EvGet (gets s + k)%nat (pollTook h (gets s + k)%nat)] /\
     gets (stateOf run) = S (gets s + k)%nat).
Proof.
  induction fuel as [|fuel IH]; intros s Hfuel Hdl; [lia|].
  rewrite acquire_pod_loop_step.
  destruct (Z.leb_spec deadline (now s)) as [Hle|Hgt].
  { exists 0%nat. split; [lia|]. split; [now left|]. split; [intros j Hj; lia|].
    left. simpl. auto. }
  cbv zeta. destruct (pollReply h (gets s)) as [pod|] eqn:Hreply.
  { exists 0%nat. split; [lia|]. split; [now left|]. split; [intros j Hj; lia|].
    right. simpl. rewrite Nat.add_0_r. rewrite Hreply. eauto. }
  pose proof (pollTook_bounds h (gets s)) as Htook.
  set (s2 := {| environ := environ s; files := files s;
                now := now s + pollTook h (gets s) + retryInterval;
                gets := S (gets s); goroutines := goroutines s |}).
  assert (Hfuel' : (1 <= fuel)%nat).
  { unfold retryInterval, time_Second in Hdl. lia. }
  destruct (IH s2 Hfuel') as (k & Hk & Hbound & Hfail & Hrun).
  { subst s2. cbn [now]. unfold retryInterval, time_Second in *. lia. }
  exists (S k). split; [lia|]. split.
  { right. subst s2. cbn [now] in Hbound. unfold retryInterval, time_Second in *. lia. }
  split.
  { intros [|j] Hj; [now rewrite Nat.add_0_r|].
    replace (gets s + S j)%nat with (gets s2 + j)%nat by (subst s2; cbn [gets]; lia).
    apply Hfail. lia. }
  cbv zeta in Hrun.
  destruct (acquire_pod_loop h fuel deadline s2) as [[r s'] evs].
  unfold resultOf, stateOf, eventsOf in *. cbn [fst snd] in *.
  replace (gets s + S k)%nat with (gets s2 + k)%nat by (subst s2; cbn [gets]; lia).
  change (failedPolls h (gets s) (S k))
    with (failedPolls h (gets s) 1 ++ failedPolls h (gets s2) k).
  destruct Hrun as [(-> & -> & Hnow)|(-> & Hpod & -> & Hgets)].
  - left. rewrite <- app_assoc. auto.
  - right. rewrite <- app_assoc. auto.
Qed.

Lemma acquirePod_eq (h : Host) (fuel : nat) (s : State) :
  acquirePod h fuel s =
  match acquire_pod_loop h fuel (now s + acquireTimeout) s with
  | (Ret _, s1, evs1) =>
      let s2 := {| environ := environ s1; files := files s1;
                   now := now s1 + pollTook h (gets s1);
                   gets := S (gets s1); goroutines := goroutines s1 |} in
      let evs := evs1 ++ [EvGet (gets s1) (pollTook h (gets s1))] in
      match pollReply h (gets s1) with
      | Some pod => (Ret pod, s2, evs)
      | None => (Panic "getPodDetails", s2, evs)
      end
  | (r, s1, evs1) => (abort r, s1, evs1)
  end.
Proof.
  unfold acquirePod. unfold bind at 1. unfold time_Now at 1. cbv iota beta.
  unfold bind at 1.
  destruct (acquire_pod_loop h fuel (now s + acquireTimeout) s) as [[r s1] evs1].
  destruct r as [[]|msg|code| |]; simpl; try rewrite app_nil_r; try reflexivity.
  unfold bind. rewrite getPodDetails_eq.
  destruct (pollReply h (gets s1)); simpl; reflexivity.
Qed.

Lemma main_eq (h : Host) (fuel : nat) (schedule : list Sched) (s : State) :
  String.eqb (flag_pod h) "" = false ->
  String.eqb (flag_namespace h) "" = false ->
  BuildConfigFromFlags_err h = None ->
  NewForConfig_err h = None ->
  main h fuel schedule s = bind (acquirePod h fuel) (launch h schedule) s.
Proof.
  intros Hpod Hns Hcfg Hclient. unfold main.
  rewrite Hpod, Hns, Hcfg, Hclient. simpl. unfold bind at 1. unfold ret at 1.
  destruct (bind (acquirePod h fuel) (launch h schedule) s) as [[r s'] evs]. reflexivity.
Qed.

(** C5: with valid flags and client, [main] polls at most 60 times, each
    poll bounded by the 10-second deadline of [getPodDetails] and each
    failed poll followed by a 5-second sleep.  Either every poll fails
    until the 5-minute deadline has passed, and the process exits with
    status 1; or a poll returns the pod, the pod is fetched once more, and
    the launch works on the reply to that second fetch (a failure of which
    is a panic). *)
Theorem pod_acquisition (h : Host) (fuel : nat) (schedule : list Sched) (s : State) :
  (61 <= fuel)%nat ->
  String.eqb (flag_pod h) "" = false ->
  String.eqb (flag_namespace h) "" = false ->
  BuildConfigFromFlags_err h = None ->
  NewForConfig_err h = None ->
  let run := main h fuel schedule s in
  exists k : nat,
    (k <= 60)%nat /\
    (forall j, (j < k)%nat ->
       pollReply h (gets s + j)%nat = None /\
       0 <= pollTook h (gets s + j)%nat <= 10 * time_Second) /\
    ((resultOf run = Exit 1 /\
      exitStatus (resultOf run) = Some 1 /\
      eventsOf run = failedPolls h (gets s) k ++ [EvLog "error" "Timeout reached. Exiting."] /\
      now s + 5 * time_Minute <= now (stateOf run))
     \/
     (exists first s2,
        pollReply h (gets s + k)%nat = Some first /\
        gets s2 = (gets s + k + 2)%nat /\
        let fetched :=
          failedPolls h (gets s) k ++
          [EvGet (gets s + k)%nat (pollTook h (gets s + k)%nat);
           EvGet (gets s + k + 1)%nat (pollTook h (gets s + k + 1)%nat)] in
        match pollReply h (gets s + k + 1)%nat with
        | Some pod =>
            run = (resultOf (launch h schedule pod s2), stateOf (launch h schedule pod s2),
                   fetched ++ eventsOf (launch h schedule pod s2))
        | None => run = (Panic "getPodDetails", s2, fetched)
        end)).
Proof.
  intros Hfuel Hpod Hns Hcfg Hclient run. subst run.
  rewrite (main_eq h fuel schedule s Hpod Hns Hcfg Hclient).
  unfold bind. rewrite acquirePod_eq.
  destruct (acquire_pod_loop_spec h fuel (now s + acquireTimeout) s) as (k & Hk & Hbound & Hfail & Hrun).
  { lia. }
  { unfold acquireTimeout, retryInterval, time_Minute, time_Second. lia. }
  exists k. split.
  { destruct Hbound as [->|Hbound]; [lia|].
    unfold acquireTimeout, retryInterval, time_Minute, time_Second in Hbound. lia. }
  split.
  { intros j Hj. split; [now apply Hfail | apply pollTook_bounds]. }
  cbv zeta in Hrun.
  destruct (acquire_pod_loop h fuel (now s + acquireTimeout) s) as [[r s1] evs1].
  unfold resultOf, stateOf, eventsOf in *. cbn [fst snd] in *.
  destruct Hrun as [(-> & -> & Hnow)|(-> & [first Hfirst] & -> & Hgets)].
  - left. cbn [abort fst snd exitStatus].
    unfold acquireTimeout in Hnow. auto.
  - right. cbv zeta.
    exists first.
    exists {| environ := environ s1; files := files s1;
              now := now s1 + pollTook h (gets s1);
              gets := S (gets s1); goroutines := goroutines s1 |}.
    split; [assumption|]. split; [cbn [gets]; lia|].
    rewrite Hgets.
    replace (gets s + k + 1)%nat with (S (gets s + k)) by lia.
    destruct (pollReply h (S (gets s + k))) as [pod|].
    + destruct (launch h schedule pod _) as [[r' s'] evs']. cbn [fst snd].
      rewrite <- !app_assoc. reflexivity.
    + cbn [abort]. rewrite <- !app_assoc. reflexivity.
Qed.

Lemma pod_acquisition_witness :
  let h := demoHost (demoPod [] [demoContainer "web" None]) dnsEnv (fun _ _ _ => Runs 8 0) in
  let run := main h 61 [Deliver SIGCHLD] (initialState h) in
  exists k : nat,
    (k <= 60)%nat /\
    (exitStatus (resultOf run) = Some 1 \/
     exists first, pollReply h (gets (initialState h) + k)%nat = Some first).
Proof.
  intros h run.
  destruct (pod_acquisition h 61 [Deliver SIGCHLD] (initialState h)
              ltac:(lia) eq_refl eq_refl eq_refl eq_refl)
    as (k & Hk & _ & [(_ & Hexit & _)|(first & s2 & Hfirst & _)]).
  - exists k. split; [exact Hk|]. left. exact Hexit.
  - exists k. split; [exact Hk|]. right. exists first. exact Hfirst.
Defined.

(* ===================================================================== *)
(** * Traces of the init containers *)
(* ===================================================================== *)

Lemma forallb_In (P : Event -> bool) (l : list Event) (e : Event) :
  forallb P l = true -> In e l -> P e = true.
Proof. intros H Hin. rewrite forallb_forall in H. now apply H. Qed.

Lemma quiet_notMain (l : list Event) : forallb quiet l = true -> forallb notMain l = true.
Proof.
  induction l as [|e l IH]; simpl; [reflexivity|].
  intros H. apply andb_prop in H as [He Hl]. rewrite (IH Hl), andb_true_r.
  destruct e as [| | | | | | | | |[] ?|[] ?]; try reflexivity; discriminate He.
Qed.

Lemma initSpawns_app (a b : list Event) : initSpawns (a ++ b) = initSpawns a ++ initSpawns b.
Proof.
  induction a as [|e a IH]; [reflexivity|].
  destruct e as [| | | | | | | | |[] ?|]; simpl; rewrite IH; reflexivity.
Qed.

Lemma initSpawns_quiet (l : list Event) : forallb quiet l = true -> initSpawns l = [].
Proof.
  induction l as [|e l IH]; [reflexivity|]. simpl.
  intros H. apply andb_prop in H as [He Hl].
  destruct e as [| | | | | | | | |[] ?|]; try discriminate He; auto.
Qed.

Lemma initSpawns_notInit (l : list Event) : forallb notInit l = true -> initSpawns l = [].
Proof.
  induction l as [|e l IH]; [reflexivity|]. simpl.
  intros H. apply andb_prop in H as [He Hl].
  destruct e as [| | | | | | | | |[] ?|]; try discriminate He; auto.
Qed.

Lemma In_initSpawns (l : list Event) (i : nat) (argv : list string) :
  In (EvSpawn Init i argv) l -> In i (initSpawns l).
Proof.
  induction l as [|e l IH]; [intros []|].
  intros [->|Hin]; [now left|].
  destruct e as [| | | | | | | | |[] ?|]; simpl; auto.
Qed.

(** Where a given element of a concatenation lies. *)
Lemma app_eq_split {A : Type} (l1 l2 before after : list A) (x : A) :
  l1 ++ l2 = before ++ x :: after ->
  (exists m, before = l1 ++ m /\ l2 = m ++ x :: after) \/
  (exists m, l1 = before ++ x :: m /\ after = m ++ l2).
Proof.
  revert before. induction l1 as [|a l1 IH]; intros before H.
  - left. exists before. auto.
  - destruct before as [|b before].
    + injection H as -> <-. right. exists l1. auto.
    + injection H as -> H. destruct (IH _ H) as [(m & -> & ->)|(m & -> & ->)].
      * left. exists m. auto.
      * right. exists m. auto.
Qed.

Lemma initCompleted_app_l (pod : Pod) (i : nat) (x tr : list Event) :
  initCompleted pod i tr -> initCompleted pod i (x ++ tr).
Proof.
  intros (c & argv & t1 & t2 & t3 & t4 & Hc & ->).
  exists c, argv, (x ++ t1), t2, t3, t4. split; [assumption|].
  now rewrite <- app_assoc.
Qed.

Lemma initCompleted_app_r (pod : Pod) (i : nat) (tr y : list Event) :
  initCompleted pod i tr -> initCompleted pod i (tr ++ y).
Proof.
  intros (c & argv & t1 & t2 & t3 & t4 & Hc & ->).
  exists c, argv, t1, t2, t3, (t4 ++ y). split; [assumption|].
  rewrite <- !app_assoc. simpl. rewrite <- !app_assoc. simpl.
  rewrite <- !app_assoc. reflexivity.
Qed.

(** What an iteration that ran to its end contributes. *)
Lemma bodyCompleted_facts (pod : Pod) (i : nat) (c : Container) (evs : list Event) :
  bodyCompleted pod i c evs ->
  initSpawns evs = [i] /\
  (forall i' code, In (EvTerminated Init i' code) evs -> i' = i /\ code = 0) /\
  forallb notMain evs = true /\
  (InitContainers pod !! i = Some c -> initCompleted pod i evs).
Proof.
  intros (pre & argv & Hpre & ->). split_and!.
  - rewrite initSpawns_app, (initSpawns_quiet _ Hpre). reflexivity.
  - intros i' code Hin. apply in_app_or in Hin as [Hin|Hin].
    + pose proof (forallb_In _ _ _ Hpre Hin) as Hq. discriminate Hq.
    + simpl in Hin. destruct Hin as [H|[H|[H|[]]]]; try discriminate H.
      injection H as <- <-. auto.
  - rewrite forallb_app, (quiet_notMain _ Hpre). reflexivity.
  - intros Hc. exists c, argv, pre, [], [], []. auto.
Qed.

(** What an iteration that stopped early contributes. *)
Lemma bodyAborted_facts (i : nat) (evs : list Event) :
  bodyAborted i evs ->
  (initSpawns evs = [] \/ initSpawns evs = [i]) /\
  (forall i' code, In (EvTerminated Init i' code) evs -> i' = i /\ initSpawns evs = [i]) /\
  forallb notMain evs = true.
Proof.
  intros [Hq|(pre & argv & code & post & Hpre & Hpost & ->)]; split_and!.
  - left. now apply initSpawns_quiet.
  - intros i' code Hin. pose proof (forallb_In _ _ _ Hq Hin) as H. discriminate H.
  - now apply quiet_notMain.
  - right. rewrite !initSpawns_app, (initSpawns_quiet _ Hpre), (initSpawns_quiet _ Hpost).
    reflexivity.
  - intros i' code' Hin.
    assert (Hs : initSpawns (pre ++ [EvSpawn Init i argv; EvTerminated Init i code] ++ post) = [i]).
    { rewrite !initSpawns_app, (initSpawns_quiet _ Hpre), (initSpawns_quiet _ Hpost).
      reflexivity. }
    split; [|exact Hs].
    apply in_app_or in Hin as [Hin|Hin].
    + pose proof (forallb_In _ _ _ Hpre Hin) as H. discriminate H.
    + apply in_app_or in Hin as [Hin|Hin].
      * simpl in Hin. destruct Hin as [H|[H|[]]]; try discriminate H.
        now injection H as <- _.
      * pose proof (forallb_In _ _ _ Hpost Hin) as H. discriminate H.
  - rewrite !forallb_app, (quiet_notMain _ Hpre), (quiet_notMain _ Hpost). reflexivity.
Qed.

(** A spawn found in the events of one iteration is the spawn of that
    iteration. *)
Lemma spawn_in_body (i j : nat) (argv : list string) (evs before after : list Event) :
  initSpawns evs = [] \/ initSpawns evs = [i] ->
  evs = before ++ EvSpawn Init j argv :: after ->
  j = i.
Proof.
  intros Hs ->. rewrite initSpawns_app in Hs. simpl in Hs.
  destruct Hs as [Hs|Hs].
  - destruct (initSpawns before); discriminate Hs.
  - destruct (initSpawns before) as [|a [|b l]]; simpl in Hs.
    + now injection Hs as ->.
    + injection Hs as _ Hs. discriminate Hs.
    + injection Hs as _ Hs. discriminate Hs.
Qed.

Lemma bodyShape_prefix (pod : Pod) (i : nat) (c : Container) (r : Res error)
    (pre evs : list Event) :
  forallb quiet pre = true -> bodyShape pod i c r evs -> bodyShape pod i c r (pre ++ evs).
Proof.
  intros Hpre [[Hr (p & argv & Hp & ->)]|[Hr Hab]].
  - left. split; [assumption|]. exists (pre ++ p), argv.
    rewrite forallb_app, Hpre, Hp, <- app_assoc. auto.
  - right. split; [assumption|].
    destruct Hab as [Hq|(p & argv & code & post & Hp & Hpost & ->)].
    + left. rewrite forallb_app, Hpre, Hq. reflexivity.
    + right. exists (pre ++ p), argv, code, post.
      rewrite forallb_app, Hpre, Hp, <- app_assoc. auto.
Qed.

Lemma bodySpec_bind {A : Type} (pod : Pod) (i : nat) (c : Container)
    (m : M A) (k : A -> M error) :
  emits quiet m -> (forall a, bodySpec pod i c (k a)) -> bodySpec pod i c (bind m k).
Proof.
  intros Hm Hk s r s' evs H.
  apply bind_inv in H as [(a & s1 & e1 & e2 & H1 & H2 & ->)|(r0 & H1 & Hr0 & ->)].
  - apply bodyShape_prefix; [exact (Hm _ _ _ _ H1) | exact (Hk _ _ _ _ _ H2)].
  - right. split; [now apply abort_not_Ret|]. left. exact (Hm _ _ _ _ H1).
Qed.

Lemma bodySpec_ret_error (pod : Pod) (i : nat) (c : Container) (e : string) :
  bodySpec pod i c (ret (Some e)).
Proof.
  intros s r s' evs [= <- <- <-]. right. split; [discriminate|]. now left.
Qed.

(** The end of the loop body, from [cmd.Run()] on. *)
Lemma bodySpec_run (h : Host) (pod : Pod) (i : nat) (c : Container) (argv : list string) :
  bodySpec pod i c (runInitContainer h pod i c argv).
Proof.
  intros s r s' evs. unfold runInitContainer, cmd_Run, os_WriteFile.
  destruct (apptainer h Init i argv) as [e|pid code].
  - unfold bind, ret, log, emit. simpl. intros [= <- <- <-].
    right. split; [discriminate|]. now left.
  - destruct (Z.eqb_spec code 0) as [->|Hcode].
    + destruct (os_WriteFile_err h (ExitCodePath pod (Name c))) as [e|].
      * unfold bind, ret, emit. simpl. intros [= <- <- <-].
        right. split; [discriminate|]. right. exists [], argv, 0, []. auto.
      * unfold bind, ret, emit, storeFile. simpl. intros [= <- <- <-].
        left. split; [reflexivity|]. exists [], argv. auto.
    + unfold bind, ret, log, emit. simpl. intros [= <- <- <-].
      right. split; [discriminate|]. right.
      exists [], argv, code, [EvLog "error" ("Error executing init container: " +:+ Name c)].
      auto.
Qed.

Lemma initContainerBody_spec (h : Host) (pod : Pod) (hpkEnv isDebug : bool)
    (i : nat) (c : Container) :
  bodySpec pod i c (initContainerBody h pod hpkEnv isDebug i c).
Proof.
  unfold initContainerBody.
  destruct (DetermineEffectiveRunAsUser h pod c) as [uid gid].
  apply bodySpec_bind; [emits_auto|intros _].
  apply bodySpec_bind; [emits_auto|intros [e|]]; [apply bodySpec_ret_error|].
  apply bodySpec_bind; [emits_auto|intros present].
  apply bodySpec_bind; [emits_auto|intros [e|]]; [apply bodySpec_ret_error|].
  apply bodySpec_bind; [emits_auto|intros _].
  apply bodySpec_bind; [emits_auto|intros [e|]]; [apply bodySpec_ret_error|].
  apply bodySpec_run.
Qed.

Lemma loop_aborted (pod : Pod) (n : nat) (c : Container) (l : list Container)
    (r : Res error) (evs : list Event) :
  bodyAborted n evs -> r <> Ret None -> initLoopProps pod n (c :: l) r evs.
Proof.
  intros Hab Hr. destruct (bodyAborted_facts n evs Hab) as (Hs & Ht & Hm).
  unfold initLoopProps. split_and!.
  - destruct Hs as [Hs|Hs]; [exists 0%nat|exists 1%nat]; rewrite Hs; simpl; split; (lia || reflexivity).
  - intros j argv before after Heq i Hi.
    pose proof (spawn_in_body n j argv evs before after Hs Heq). lia.
  - intros i code Hin. destruct (Ht i code Hin) as [-> Hsp]. split; [lia|].
    intros _. split; [assumption|]. now rewrite Nat.sub_diag.
  - assumption.
  - intros Hret. contradiction.
Qed.

Lemma loop_continued (pod : Pod) (n : nat) (c : Container) (l : list Container)
    (r : Res error) (eb er : list Event) :
  bodyCompleted pod n c eb ->
  InitContainers pod !! n = Some c ->
  initLoopProps pod (S n) l r er ->
  initLoopProps pod n (c :: l) r (eb ++ er).
Proof.
  intros Hb Hc ([k [Hk Hsp]] & H2 & H3 & H4 & H5).
  destruct (bodyCompleted_facts pod n c eb Hb) as (Hs & Ht & Hm & Hdone).
  specialize (Hdone Hc).
  unfold initLoopProps. split_and!.
  - exists (S k). split; [simpl; lia|]. rewrite initSpawns_app, Hs, Hsp. reflexivity.
  - intros j argv before after Heq i Hi.
    apply app_eq_split in Heq as [(m & -> & Her)|(m & Heb & _)].
    + destruct (Nat.eq_dec i n) as [->|Hne].
      * now apply initCompleted_app_r.
      * apply initCompleted_app_l. apply (H2 j argv m after Her). lia.
    + pose proof (spawn_in_body n j argv eb before m (or_intror Hs) Heb). lia.
  - intros i code Hin. apply in_app_or in Hin as [Hin|Hin].
    + destruct (Ht i code Hin) as [-> ->]. split; [lia|]. intros Hne. now contradiction Hne.
    + destruct (H3 i code Hin) as [Hi Hcode]. split; [lia|].
      intros Hne. destruct (Hcode Hne) as [Hr Hsp']. split; [assumption|].
      rewrite initSpawns_app, Hs, Hsp'.
      replace (i - n)%nat with (S (i - S n)) by lia. reflexivity.
  - rewrite forallb_app, Hm, H4. reflexivity.
  - intros Hr i Hi. destruct (Nat.eq_dec i n) as [->|Hne].
    + now apply initCompleted_app_r.
    + apply initCompleted_app_l. apply (H5 Hr). simpl in Hi. lia.
Qed.

Lemma initContainersFrom_props (h : Host) (pod : Pod) (hpkEnv isDebug : bool) :
  forall (l done : list Container) (n : nat),
    InitContainers pod = done ++ l -> length done = n ->
    forall s r s' evs,
      initContainersFrom h pod hpkEnv isDebug n l s = (r, s', evs) ->
      initLoopProps pod n l r evs.
Proof.
  induction l as [|c l IH]; intros done n Hpod Hlen s r s' evs Hrun.
  - injection Hrun as <- <- <-. unfold initLoopProps. split_and!.
    + exists 0%nat. auto.
    + intros j argv before after Heq. destruct before; discriminate Heq.
    + intros i code [].
    + reflexivity.
    + intros _ i Hi. simpl in Hi. lia.
  - cbn [initContainersFrom] in Hrun.
    assert (Hc : InitContainers pod !! n = Some c).
    { rewrite Hpod, <- Hlen. apply list_lookup_middle. reflexivity. }
    apply bind_inv in Hrun as [(a & s1 & e1 & e2 & H1 & H2 & ->)|(r0 & H1 & Hr0 & ->)].
    + apply initContainerBody_spec in H1 as [[Ha Hb]|[Ha Hb]].
      * injection Ha as ->. apply loop_continued; [assumption..|].
        apply (IH (done ++ [c]) (S n)) with (s := s1) (s' := s').
        -- now rewrite <- app_assoc.
        -- rewrite length_app. simpl. lia.
        -- assumption.
      * destruct a as [e|]; [|contradiction].
        injection H2 as <- <- <-. rewrite app_nil_r.
        apply loop_aborted; [assumption|discriminate].
    + apply initContainerBody_spec in H1 as [[-> Hb]|[Ha Hb]]; [discriminate Hr0|].
      apply loop_aborted; [assumption|now apply abort_not_Ret].
Qed.

Lemma handleInitContainers_props (h : Host) (pod : Pod) (hpkEnv : bool)
    (s : State) (r : Res error) (s' : State) (evs : list Event) :
  handleInitContainers h pod hpkEnv s = (r, s', evs) ->
  initLoopProps pod 0 (InitContainers pod) r evs.
Proof.
  unfold handleInitContainers, bind, os_Getenv.
  destruct (initContainersFrom h pod hpkEnv _ 0 (InitContainers pod) s) as [[r1 s1] e1] eqn:Hrun.
  intros [= <- <- <-]. simpl.
  exact (initContainersFrom_props h pod hpkEnv _ (InitContainers pod) [] 0%nat eq_refl eq_refl
           s r1 s1 e1 Hrun).
Qed.

(* ===================================================================== *)
(** * Traces of the main containers and of the whole run *)
(* ===================================================================== *)

Lemma notInit_goroutineStep h pod t pc : emits notInit (goroutineStep h pod t pc).
Proof. unfold goroutineStep. destruct pc as [| |[[pid code]|]| | |]; emits_auto. Qed.
#[local] Hint Resolve notInit_goroutineStep : emits.

Lemma notInit_runGoroutine h pod i : emits notInit (runGoroutine h pod i).
Proof. unfold runGoroutine. emits_auto. Qed.
#[local] Hint Resolve notInit_runGoroutine : emits.

Lemma notInit_runGoroutines h pod steps : emits notInit (runGoroutines h pod steps).
Proof. induction steps as [|i steps IH]; simpl; emits_auto. Qed.
#[local] Hint Resolve notInit_runGoroutines : emits.

Lemma notInit_go t : emits notInit (go t).
Proof. unfold go. emits_auto. Qed.
#[local] Hint Resolve notInit_go : emits.

Lemma notInit_containersFrom h pod hpkEnv isDebug :
  forall l i, emits notInit (containersFrom h pod hpkEnv isDebug i l).
Proof.
  induction l as [|c l IH]; intros i; simpl; [emits_auto|].
  destruct (DetermineEffectiveRunAsUser h pod c) as [uid gid].
  pose proof (IH (S i)). emits_auto.
Qed.

Lemma notInit_handleContainers h pod hpkEnv : emits notInit (handleContainers h pod hpkEnv).
Proof.
  unfold handleContainers. apply emits_bind; [emits_auto|intros debugMode].
  apply notInit_containersFrom.
Qed.

Lemma notInit_awaitDone h pod schedule : emits notInit (awaitDone h pod schedule).
Proof.
  induction schedule as [|[i|[]] schedule IH]; simpl; emits_auto.
Qed.

Lemma quiet_notInit (l : list Event) : forallb quiet l = true -> forallb notInit l = true.
Proof.
  induction l as [|e l IH]; simpl; [reflexivity|].
  intros H. apply andb_prop in H as [He Hl]. rewrite (IH Hl), andb_true_r.
  destruct e as [| | | | | | | | |[] ?|[] ?]; try reflexivity; discriminate He.
Qed.

(** The events of [launch]: events of the preparation, then those of the
    init containers, then the rest, which holds nothing but a log message
    unless the init containers all succeeded. *)
Lemma launch_events (h : Host) (schedule : list Sched) (pod : Pod) (s : State) :
  exists e1 eInit e3 rInit,
    eventsOf (launch h schedule pod s) = e1 ++ eInit ++ e3 /\
    forallb quiet e1 = true /\
    initLoopProps pod 0 (InitContainers pod) rInit eInit /\
    forallb notInit e3 = true /\
    (rInit <> Ret None -> forallb quiet e3 = true).
Proof.
  assert (Hnil : forall r, r <> Ret None -> initLoopProps pod 0 (InitContainers pod) r []).
  { intros r Hr. unfold initLoopProps. split_and!.
    - exists 0%nat. split; [lia|reflexivity].
    - intros j argv before after Heq. destruct before; discriminate Heq.
    - intros i code [].
    - reflexivity.
    - intros Hret. contradiction. }
  destruct (launch h schedule pod s) as [[r s'] evs] eqn:Hrun. unfold eventsOf. simpl.
  unfold launch in Hrun.
  apply bind_inv in Hrun as [(a & s1 & e1 & e2 & H1 & H2 & ->)|(r0 & H1 & Hr0 & ->)].
  2:{ exists evs, [], [], (Panic ""). rewrite !app_nil_r.
      split_and!; [reflexivity|exact (quiet_prepareContainers h pod _ _ _ _ H1)| |reflexivity|reflexivity].
      apply Hnil. discriminate. }
  pose proof (quiet_prepareContainers h pod _ _ _ _ H1) as Hq1.
  destruct a as [e|].
  { unfold bind, log, emit, ret in H2. injection H2 as <- <- <-.
    exists e1, [], [EvLog "error" "Error preparing container environment"], (Panic "").
    split_and!; [reflexivity|assumption| |reflexivity|reflexivity].
    apply Hnil. discriminate. }
  apply bind_inv in H2 as [(a & s2 & eI & e3 & HI & H3 & ->)|(r0 & HI & Hr0 & ->)].
  2:{ exists e1, e2, [], r0. rewrite app_nil_r.
      split_and!; [reflexivity|assumption| |reflexivity|reflexivity].
      destruct (0 <? length (InitContainers pod))%nat.
      - exact (handleInitContainers_props h pod true _ _ _ _ HI).
      - injection HI as <- <- <-. discriminate Hr0. }
  assert (HP : initLoopProps pod 0 (InitContainers pod) (Ret a) eI).
  { destruct (0 <? length (InitContainers pod))%nat eqn:Hlen.
    - exact (handleInitContainers_props h pod true _ _ _ _ HI).
    - injection HI as <- <- <-.
      destruct (InitContainers pod) as [|c l] eqn:Hl; [|discriminate Hlen].
      unfold initLoopProps. split_and!.
      + exists 0%nat. split; [lia|reflexivity].
      + intros j argv before after Heq. destruct before; discriminate Heq.
      + intros i code [].
      + reflexivity.
      + intros _ i Hi. simpl in Hi. lia. }
  exists e1, eI, e3, (Ret a).
  split; [reflexivity|]. split; [assumption|]. split; [assumption|].
  destruct a as [e|].
  { unfold bind, log, emit, ret in H3. injection H3 as <- <- <-.
    split; [reflexivity|]. intros _. reflexivity. }
  split; [|intros Hne; now contradiction Hne].
  assert (Hrest : emits notInit
            (err <- handleContainers h pod true ;;
             match err with
             | Some _ => log "error" "Error executing main containers" ;; ret tt
             | None =>
                 log "info" "Containers have started. Now waiting on context or signals" ;;
                 awaitDone h pod schedule
             end)).
  { pose proof (notInit_handleContainers h pod true).
    pose proof (notInit_awaitDone h pod schedule). emits_auto. }
  exact (Hrest _ _ _ _ H3).
Qed.

Lemma sequential_props (pod : Pod) (e1 eInit e3 : list Event) (rInit : Res error) :
  forallb quiet e1 = true ->
  initLoopProps pod 0 (InitContainers pod) rInit eInit ->
  forallb notInit e3 = true ->
  (rInit <> Ret None -> forallb quiet e3 = true) ->
  initSequential pod (e1 ++ eInit ++ e3).
Proof.
  intros Hq1 ([k [Hk Hsp]] & H2 & H3 & H4 & H5) Hn3 Hq3.
  assert (Hspawns : initSpawns (e1 ++ eInit ++ e3) = initSpawns eInit).
  { rewrite !initSpawns_app, (initSpawns_quiet _ Hq1), (initSpawns_notInit _ Hn3).
    now rewrite app_nil_r. }
  unfold initSequential. split_and!.
  - exists k. split; [assumption|]. now rewrite Hspawns.
  - intros j argv before after Heq i Hi.
    apply app_eq_split in Heq as [(m & -> & Heq)|(m & Heq & _)].
    2:{ assert (Hin : In (EvSpawn Init j argv) e1) by (rewrite Heq; apply in_elt).
        pose proof (forallb_In _ _ _ Hq1 Hin) as H. discriminate H. }
    apply app_eq_split in Heq as [(m' & _ & Heq)|(m' & Heq & _)].
    { assert (Hin : In (EvSpawn Init j argv) e3) by (rewrite Heq; apply in_elt).
      pose proof (forallb_In _ _ _ Hn3 Hin) as H. discriminate H. }
    apply initCompleted_app_l. apply (H2 j argv m m' Heq). lia.
  - intros i code Hin Hcode.
    assert (HinI : In (EvTerminated Init i code) eInit).
    { apply in_app_or in Hin as [Hin|Hin].
      - pose proof (forallb_In _ _ _ Hq1 Hin) as H. discriminate H.
      - apply in_app_or in Hin as [Hin|Hin]; [assumption|].
        pose proof (forallb_In _ _ _ Hn3 Hin) as H. discriminate H. }
    destruct (H3 i code HinI) as [_ Hab]. destruct (Hab Hcode) as [Hr Hsp'].
    split.
    + intros j argv Hj Hspawn. apply In_initSpawns in Hspawn.
      rewrite Hspawns, Hsp' in Hspawn. apply in_seq in Hspawn. lia.
    + intros e He.
      assert (Hm : forallb notMain (e1 ++ eInit ++ e3) = true).
      { rewrite !forallb_app, (quiet_notMain _ Hq1), H4, (quiet_notMain _ (Hq3 Hr)).
        reflexivity. }
      pose proof (forallb_In _ _ _ Hm He) as H. unfold notMain in H.
      now apply negb_true_iff in H.
  - intros e before after Heq He i Hi.
    apply app_eq_split in Heq as [(m & -> & Heq)|(m & Heq & _)].
    2:{ assert (Hin : In e e1) by (rewrite Heq; apply in_elt).
        pose proof (forallb_In _ _ _ (quiet_notMain _ Hq1) Hin) as H.
        unfold notMain in H. rewrite He in H. discriminate H. }
    apply app_eq_split in Heq as [(m' & -> & Heq)|(m' & Heq & _)].
    2:{ assert (Hin : In e eInit) by (rewrite Heq; apply in_elt).
        pose proof (forallb_In _ _ _ H4 Hin) as H.
        unfold notMain in H. rewrite He in H. discriminate H. }
    assert (Hr : rInit = Ret None).
    { destruct rInit as [[err|]|msg|code| |]; try reflexivity;
        (assert (Hin : In e e3) by (rewrite Heq; apply in_elt);
         assert (Hq : forallb quiet e3 = true) by (apply Hq3; discriminate);
         pose proof (forallb_In _ _ _ (quiet_notMain _ Hq) Hin) as H;
         unfold notMain in H; rewrite He in H; discriminate H). }
    apply initCompleted_app_l, initCompleted_app_r. apply (H5 Hr). lia.
Qed.

Lemma initSequential_quiet (pod : Pod) (evs : list Event) :
  forallb quiet evs = true -> initSequential pod evs.
Proof.
  intros Hq.
  assert (H : initSequential pod (evs ++ [] ++ [])).
  { apply (sequential_props pod evs [] [] (Panic "")); auto.
    unfold initLoopProps. split_and!.
    - exists 0%nat. split; [lia|reflexivity].
    - intros j argv before after Heq. destruct before; discriminate Heq.
    - intros i code [].
    - reflexivity.
    - discriminate. }
  now rewrite !app_nil_r in H.
Qed.

Lemma initSequential_launch (h : Host) (schedule : list Sched) (pod : Pod) (s : State)
    (e0 : list Event) :
  forallb quiet e0 = true ->
  initSequential pod (e0 ++ eventsOf (launch h schedule pod s)).
Proof.
  intros Hq0.
  destruct (launch_events h schedule pod s) as (e1 & eI & e3 & rI & -> & Hq1 & HP & Hn3 & Hq3).
  rewrite app_assoc.
  apply (sequential_props pod (e0 ++ e1) eI e3 rI); auto.
  now rewrite forallb_app, Hq0, Hq1.
Qed.

Lemma quiet_getPodDetails h namespace podID : emits quiet (getPodDetails h namespace podID).
Proof. intros s r s' evs [= <- <- <-]. reflexivity. Qed.
#[local] Hint Resolve quiet_getPodDetails : emits.

Lemma quiet_time_Now : emits quiet time_Now.
Proof. intros s r s' evs [= <- <- <-]. reflexivity. Qed.
Lemma quiet_time_Sleep d : emits quiet (time_Sleep d).
Proof. intros s r s' evs [= <- <- <-]. reflexivity. Qed.
Lemma quiet_outOfFuel {A : Type} : emits quiet (@outOfFuel A).
Proof. intros s r s' evs [= <- <- <-]. reflexivity. Qed.
#[local] Hint Resolve quiet_time_Now quiet_time_Sleep quiet_outOfFuel : emits.

Lemma quiet_acquire_pod_loop h deadline : forall fuel, emits quiet (acquire_pod_loop h fuel deadline).
Proof. induction fuel as [|fuel IH]; simpl; emits_auto. Qed.

Lemma quiet_acquirePod h fuel : emits quiet (acquirePod h fuel).
Proof.
  pose proof (quiet_acquire_pod_loop h). unfold acquirePod. emits_auto.
Qed.

Lemma quiet_log_Fatal {A : Type} msg : emits quiet (@log_Fatal A msg).
Proof. unfold log_Fatal. emits_auto. Qed.
#[local] Hint Resolve quiet_log_Fatal : emits.

Lemma bind_ret {A B : Type} (a : A) (k : A -> M B) (s : State) : bind (ret a) k s = k a s.
Proof. unfold bind, ret. destruct (k a s) as [[r s2] e2]. reflexivity. Qed.

(** The pod that [main] launches, if it gets that far. *)
Lemma main_events (h : Host) (fuel : nat) (schedule : list Sched) (s : State) :
  forallb quiet (eventsOf (main h fuel schedule s)) = true \/
  exists pod s1 e0,
    acquirePod h fuel s = (Ret pod, s1, e0) /\
    eventsOf (main h fuel schedule s) = e0 ++ eventsOf (launch h schedule pod s1).
Proof.
  pose proof (quiet_acquirePod h fuel) as Hacq.
  unfold main.
  destruct (String.eqb (flag_pod h) "" || String.eqb (flag_namespace h) "").
  { left. reflexivity. }
  destruct (BuildConfigFromFlags_err h); [left; reflexivity|].
  destruct (NewForConfig_err h); [left; reflexivity|].
  rewrite bind_ret. unfold bind.
  destruct (acquirePod h fuel s) as [[r s1] e0] eqn:Hrun.
  destruct r as [pod|msg|code| |];
    try (left; unfold eventsOf; simpl; exact (Hacq _ _ _ _ Hrun)).
  right. exists pod, s1, e0. split; [reflexivity|].
  destruct (launch h schedule pod s1) as [[r' s'] evs']. reflexivity.
Qed.

(** C4: in every run of [main], for the pod it launches, the init
    containers are spawned in the order of the list, each only after every
    earlier one was spawned, terminated with status 0 and had its exit-code
    file written; after an init container exits non-zero no later init
    container is spawned, no goroutine is created and no main container is
    started; and a main container is started only after all init containers
    have finished. *)
Theorem init_containers_sequential (h : Host) (fuel : nat) (schedule : list Sched)
    (s : State) (pod : Pod) :
  resultOf (acquirePod h fuel s) = Ret pod ->
  initSequential pod (eventsOf (main h fuel schedule s)).
Proof.
  intros Hpod.
  destruct (main_events h fuel schedule s) as [Hq|(pod' & s1 & e0 & Hacq & ->)].
  - now apply initSequential_quiet.
  - rewrite Hacq in Hpod. injection Hpod as ->.
    apply initSequential_launch. exact (quiet_acquirePod h fuel _ _ _ _ Hacq).
Qed.

Lemma init_containers_sequential_witness :
  let pod := demoPod [demoContainer "prep" (Some ["/bin/true"]); demoContainer "seed" None]
                     [demoContainer "app" None] in
  let h := demoHost pod dnsEnv (fun _ _ _ => Runs 8 0) in
  initSequential pod (eventsOf (pea h 61 [Step 0; Step 0; Deliver SIGCHLD])).
Proof.
  intros pod h. apply (init_containers_sequential h 61 _ (initialState h) pod).
  vm_compute. reflexivity.
Defined.

(* ===================================================================== *)
(** * Exit status and failures *)
(* ===================================================================== *)

(** When the preparation or an init container fails, [main] logs the error
    and returns. *)
Lemma launch_returns_after_failure (h : Host) (schedule : list Sched) (pod : Pod) (s : State) :
  (forall e, resultOf (prepareContainers h pod s) = Ret (Some e) ->
     resultOf (launch h schedule pod s) = Ret tt) /\
  (forall e,
     resultOf (prepareContainers h pod s) = Ret None ->
     (0 <? length (InitContainers pod))%nat = true ->
     resultOf (handleInitContainers h pod true (stateOf (prepareContainers h pod s)))
       = Ret (Some e) ->
     resultOf (launch h schedule pod s) = Ret tt).
Proof.
  unfold launch, bind, resultOf, stateOf.
  destruct (prepareContainers h pod s) as [[r1 s1] e1]. cbn [fst snd].
  split.
  - intros e ->. reflexivity.
  - intros e -> -> Hinit.
    destruct (handleInitContainers h pod true s1) as [[r2 s2] e2]. cbn [fst snd] in *.
    subst r2. reflexivity.
Qed.

(** With [KUBEDNS_IP] unset [prepareDNS] fails before writing anything. *)
Lemma prepareDNS_unset (h : Host) (pod : Pod) (s : State) :
  environ s !! "KUBEDNS_IP" = None ->
  os_MkdirAll_err h "/scratch/etc" = None ->
  prepareDNS h pod s =
  (Ret (Some "KUBEDNS_IP environment variable not set"), s, [EvMkdirAll "/scratch/etc"]).
Proof.
  intros Henv Hmk. unfold prepareDNS, os_MkdirAll, os_Getenv, bind, emit, ret.
  rewrite Hmk, Henv. reflexivity.
Qed.

(** C1 (defect of the code): when [KUBEDNS_IP] is unset, and when an init
    container exits with status 1, the process ends with exit status 0:
    [main] logs the error and returns instead of exiting non-zero. *)
Theorem failure_exit_status :
  resultOf (prepareContainers noDNSHost (demoPod [] [demoContainer "web" None])
              (initialState noDNSHost)) =
    Ret (Some "could not prepare DNS : KUBEDNS_IP environment variable not set") /\
  pea noDNSHost 61 [Deliver SIGCHLD] =
    (Ret tt,
     {| environ := ∅; files := ∅; now := 2000000; gets := 2; goroutines := [] |},
     [EvGet 0 1000000; EvGet 1 1000000; EvMkdirAll "/scratch/etc";
      EvLog "error" "Error preparing container environment"]) /\
  exitStatus (resultOf (pea noDNSHost 61 [Deliver SIGCHLD])) = Some 0 /\
  In (EvTerminated Init 0 1) (eventsOf (pea failingInitHost 61 [Deliver SIGCHLD])) /\
  exitStatus (resultOf (pea failingInitHost 61 [Deliver SIGCHLD])) = Some 0.
Proof.
  split_and!; try (vm_compute; reflexivity).
  vm_compute. tauto.
Qed.

(** An init container that exits with a status other than 0 makes the
    loop body return before anything is written: the state is unchanged. *)
Lemma nonzero_exit_returns_early (h : Host) (pod : Pod) (i : nat) (c : Container)
    (argv : list string) (pid code : Z) (s : State) :
  apptainer h Init i argv = Runs pid code ->
  code <> 0 ->
  runInitContainer h pod i c argv s =
  (Ret (Some ("init container failed: " +:+ "exit status " +:+ strconv_Itoa code)), s,
   [EvSpawn Init i argv; EvTerminated Init i code;
    EvLog "error" ("Error executing init container: " +:+ Name c)]).
Proof.
  intros Hrun Hcode. unfold runInitContainer, cmd_Run. rewrite Hrun.
  destruct (Z.eqb_spec code 0) as [->|_]; [now contradiction Hcode|].
  reflexivity.
Qed.

(** C3 (defect of the code): the init container of scenario 3 is spawned
    and terminates with status 1, and no exit-code file is written for it:
    the error of [cmd.Run()] makes the loop body return first. *)
Theorem init_exit_code_not_written :
  let run := pea failingInitHost 61 [Deliver SIGCHLD] in
  initSpawns (eventsOf run) = [0%nat] /\
  In (EvTerminated Init 0 1) (eventsOf run) /\
  files (stateOf run) !! ExitCodePath failingInitPod "prep" = None /\
  files (stateOf run) !! IDPath failingInitPod "prep" = Some "pid://100" /\
  forallb (fun e => match e with
                    | EvWriteFile path _ =>
                        negb (String.eqb path (ExitCodePath failingInitPod "prep"))
                    | _ => true
                    end) (eventsOf run) = true.
Proof.
  intros run. split_and!; try (vm_compute; reflexivity).
  vm_compute. tauto.
Qed.

(** The goroutine of a main container whose start failed logs the failure
    and then panics on [cmd.Process.Pid]. *)
Lemma goroutine_after_failed_start (h : Host) (pod : Pod) (t : Task) (s : State) (e : string) :
  apptainer h Main (taskIndex t) (taskArgs t) = StartFails e ->
  goroutineStep h pod t AtStart s =
    (Ret (AtPid None), s,
     [EvLog "info" ("Spawning main container: " +:+ Name (taskContainer t));
      EvLog "error" "Failed to start Apptainer container"]) /\
  goroutineStep h pod t (AtPid None) s =
    (Panic "invalid memory address or nil pointer dereference", s, []).
Proof.
  intros Hstart. unfold goroutineStep. rewrite Hstart. split; reflexivity.
Qed.

(** A panic in a goroutine ends the process, whatever the other goroutines
    still had to do. *)
Lemma awaitDone_panics (h : Host) (pod : Pod) (i : nat) (rest : list Sched)
    (t : Task) (s : State) :
  goroutines s !! i = Some (t, AtPid None) ->
  awaitDone h pod (Step i :: rest) s =
    (Panic "invalid memory address or nil pointer dereference", s, []).
Proof.
  intros Hi. cbn [awaitDone]. unfold runGoroutine, getGoroutines, bind.
  cbv beta iota. rewrite Hi. reflexivity.
Qed.

(** C2 (defect of the code): with two main containers of which the first
    cannot be started, the goroutine of the first logs the failure and
    then panics; the process dies with status 2 while the second container,
    already started, has no [.id] and no [.exitCode] yet. *)
Theorem spawn_error_panics :
  let run := pea spawnErrorHost 61 spawnErrorSchedule in
  resultOf run = Panic "invalid memory address or nil pointer dereference" /\
  exitStatus (resultOf run) = Some 2 /\
  In (EvLog "error" "Failed to start Apptainer container") (eventsOf run) /\
  map snd (goroutines (stateOf run)) = [AtPid None; AtPid (Some (8, 0))] /\
  files (stateOf run) !! IDPath spawnErrorPod "bad" = None /\
  files (stateOf run) !! ExitCodePath spawnErrorPod "bad" = None /\
  files (stateOf run) !! LogsPath spawnErrorPod "good" = Some "" /\
  files (stateOf run) !! ExitCodePath spawnErrorPod "good" = None.
Proof.
  intros run. split_and!; try (vm_compute; reflexivity).
  vm_compute. tauto.
Qed.

(* ===================================================================== *)
(** * Environment preparation, further *)
(* ===================================================================== *)

Lemma unsetAll_spec (names : list string) :
  forall s : State,
    exists env',
      unsetAll names s =
      (Ret None,
       {| environ := env'; files := files s; now := now s; gets := gets s;
          goroutines := goroutines s |},
       map EvUnsetenv names) /\
      (forall name, In name names -> env' !! name = None) /\
      (forall name, ~ In name names -> env' !! name = environ s !! name).
Proof.
  induction names as [|n names IH]; intros s.
  - exists (environ s). split; [destruct s; reflexivity|]. split; [intros ? []|reflexivity].
  - cbn [unsetAll]. unfold bind at 1. unfold os_Unsetenv at 1. cbv beta iota.
    destruct (IH {| environ := delete n (environ s); files := files s; now := now s;
                    gets := gets s; goroutines := goroutines s |})
      as (env' & Hrun & Hin & Hout).
    rewrite Hrun. cbn [files now gets goroutines environ] in *.
    exists env'. split; [reflexivity|]. split.
    + intros name [<-|Hname]; [|now apply Hin].
      destruct (in_dec string_dec n names) as [Hn|Hn]; [now apply Hin|].
      rewrite (Hout n Hn). apply lookup_delete_eq.
    + intros name Hname.
      rewrite Hout by (intros H; apply Hname; now right).
      apply lookup_delete_ne. intros ->. apply Hname. now left.
Qed.

(** X1: [cleanEnvironment] always returns nil; afterwards none of the
    twelve listed variables is set, every other variable is as before, and
    nothing but the environment has changed. *)
Theorem cleanEnvironment_scrubs (s : State) :
  let run := cleanEnvironment s in
  resultOf run = Ret None /\
  (forall name, In name envVars -> environ (stateOf run) !! name = None) /\
  (forall name, ~ In name envVars -> environ (stateOf run) !! name = environ s !! name) /\
  files (stateOf run) = files s /\
  goroutines (stateOf run) = goroutines s /\
  eventsOf run = map EvUnsetenv envVars.
Proof.
  intros run. subst run. unfold cleanEnvironment.
  destruct (unsetAll_spec envVars s) as (env' & -> & Hin & Hout).
  unfold resultOf, stateOf, eventsOf. cbn [fst snd environ files goroutines].
  split_and!; auto.
Qed.

Lemma lastChar_app (a : string) (c : ascii) (b : string) :
  lastChar (a +:+ String c b) = lastChar (String c b).
Proof.
  induction a as [|x a IH]; [reflexivity|].
  rewrite append_cons. cbn [lastChar].
  destruct (a +:+ String c b) eqn:Heq; [destruct a; discriminate Heq|].
  exact IH.
Qed.

Lemma IPAddressPath_lastChar (pod : Pod) : lastChar (IPAddressPath pod) = Some "p"%char.
Proof.
  unfold IPAddressPath, filepath_Join.
  change ("/" +:+ ".ip") with (String "/" ".ip"). now rewrite lastChar_app.
Qed.

Lemma IPAddressPath_not_scratch (pod : Pod) :
  IPAddressPath pod <> "/scratch/etc/hosts" /\ IPAddressPath pod <> "/scratch/etc/resolv.conf".
Proof.
  pose proof (IPAddressPath_lastChar pod) as H.
  split; intros Heq; rewrite Heq in H; discriminate H.
Qed.

(** What a successful [prepareDNS] has done. *)
Lemma prepareDNS_success (h : Host) (pod : Pod) (s : State) :
  resultOf (prepareDNS h pod s) = Ret None ->
  exists hostname addrs,
    os_Hostname h = (hostname, None) /\
    net_InterfaceAddrs h = (addrs, None) /\
    default "" (environ s !! "KUBEDNS_IP") <> "" /\
    stateOf (prepareDNS h pod s) =
    {| environ := environ s;
       files :=
         <["/scratch/etc/hosts" :=
             "127.0.0.1 localhost" +:+ newline +:+
             (strings_Join (ipAddressesOf addrs) " " +:+ " " +:+ hostname) +:+ " " +:+ newline]>
           (<["/scratch/etc/resolv.conf" :=
                resolvConfContent (Namespace pod) (default "" (environ s !! "KUBEDNS_IP"))]>
              (files s));
       now := now s; gets := gets s; goroutines := goroutines s |}.
Proof.
  unfold prepareDNS, DebugDNSInfo, os_MkdirAll, os_Getenv, os_WriteFile.
  unfold log, bind, emit, storeFile, ret, resultOf, stateOf.
  destruct (os_MkdirAll_err h "/scratch/etc"); simpl; [discriminate|].
  destruct (String.eqb_spec (default "" (environ s !! "KUBEDNS_IP")) ""); simpl; [discriminate|].
  destruct (os_WriteFile_err h "/scratch/etc/resolv.conf"); simpl; [discriminate|].
  destruct (os_Hostname h) as [hostname [e|]]; simpl; [discriminate|].
  destruct (net_InterfaceAddrs h) as [addrs [e|]]; simpl; [discriminate|].
  destruct (os_WriteFile_err h "/scratch/etc/hosts"); simpl; [discriminate|].
  intros _. exists hostname, addrs. auto.
Qed.

Lemma announceIP_success (h : Host) (pod : Pod) (s : State) :
  resultOf (announceIP h pod s) = Ret None ->
  exists addrs,
    net_InterfaceAddrs h = (addrs, None) /\
    announceIP h pod s =
    (Ret None,
     {| environ := environ s;
        files := <[IPAddressPath pod := strings_Join (ipAddressesOf addrs) " "]> (files s);
        now := now s; gets := gets s; goroutines := goroutines s |},
     [EvWriteFile (IPAddressPath pod) (strings_Join (ipAddressesOf addrs) " ")]).
Proof.
  unfold announceIP, os_WriteFile, bind, storeFile, ret, resultOf.
  destruct (net_InterfaceAddrs h) as [addrs [e|]]; simpl; [discriminate|].
  destruct (os_WriteFile_err h (IPAddressPath pod)); simpl; [discriminate|].
  intros _. exists addrs. auto.
Qed.

Lemma unsetAll_inv (names : list string) (s : State) (r : Res error) (s' : State)
    (evs : list Event) :
  unsetAll names s = (r, s', evs) ->
  r = Ret None /\ files s' = files s /\
  (forall name, In name names -> environ s' !! name = None) /\
  (forall name, ~ In name names -> environ s' !! name = environ s !! name).
Proof.
  destruct (unsetAll_spec names s) as (env' & -> & Hin & Hout).
  intros [= <- <- <-]. cbn [files environ]. auto.
Qed.

Lemma cleanEnvironment_inv (s : State) (r : Res error) (s' : State) (evs : list Event) :
  cleanEnvironment s = (r, s', evs) ->
  r = Ret None /\ files s' = files s /\
  (forall name, In name envVars -> environ s' !! name = None) /\
  (forall name, ~ In name envVars -> environ s' !! name = environ s !! name).
Proof. unfold cleanEnvironment. apply unsetAll_inv. Qed.

(** X2: when [prepareContainers] returns nil, [/scratch/etc/resolv.conf],
    [/scratch/etc/hosts] and the pod's [.ip] file hold the synthesized
    contents, [.ip] being the IPv4 list joined by single spaces, the twelve
    listed variables are unset and [KUBEDNS_IP] is still set. *)
Theorem prepareContainers_success (h : Host) (pod : Pod) (s : State) :
  let run := prepareContainers h pod s in
  let kubeDNSIP := default "" (environ s !! "KUBEDNS_IP") in
  resultOf run = Ret None ->
  exists hostname addrs,
    os_Hostname h = (hostname, None) /\
    net_InterfaceAddrs h = (addrs, None) /\
    files (stateOf run) !! "/scratch/etc/resolv.conf" =
      Some (resolvConfContent (Namespace pod) kubeDNSIP) /\
    files (stateOf run) !! "/scratch/etc/hosts" =
      Some ("127.0.0.1 localhost" +:+ newline +:+
            (strings_Join (ipAddressesOf addrs) " " +:+ " " +:+ hostname) +:+ " " +:+ newline) /\
    files (stateOf run) !! IPAddressPath pod = Some (strings_Join (ipAddressesOf addrs) " ") /\
    (forall name, In name envVars -> environ (stateOf run) !! name = None) /\
    environ (stateOf run) !! "KUBEDNS_IP" = Some kubeDNSIP /\ kubeDNSIP <> "".
Proof.
  intros run kubeDNSIP Hok. subst run.
  destruct (prepareContainers h pod s) as [[r s'] evs] eqn:Hrun.
  unfold resultOf, stateOf in *. cbn [fst snd] in *. subst r.
  unfold prepareContainers in Hrun.
  apply bind_inv in Hrun as [(a & s1 & e1 & e2 & H1 & H2 & ->)|(r0 & _ & Hr0 & Habs)];
    [|destruct r0; discriminate].
  destruct a as [e|]; [discriminate H2|].
  apply bind_inv in H2 as [(a & s2 & e2' & e3 & H2 & H3 & ->)|(r0 & _ & Hr0 & Habs)];
    [|destruct r0; discriminate].
  destruct a as [e|]; [discriminate H3|].
  apply bind_inv in H3 as [(a & s3 & e3' & e4 & H3 & H4 & ->)|(r0 & _ & Hr0 & Habs)];
    [|destruct r0; discriminate].
  pose proof (prepareDNS_success h pod s) as Hdns. rewrite H1 in Hdns.
  destruct (Hdns eq_refl) as (hostname & addrs & Hhost & Haddrs & Hne & Hs1).
  unfold stateOf in Hs1. cbn [fst snd] in Hs1. subst s1.
  pose proof (announceIP_success h pod) as Hip.
  match type of H2 with announceIP h pod ?s1 = _ => specialize (Hip s1) end.
  rewrite H2 in Hip. destruct (Hip eq_refl) as (addrs' & Haddrs' & [= -> ->]).
  rewrite Haddrs in Haddrs'. injection Haddrs' as <-.
  apply cleanEnvironment_inv in H3 as (Ha & Hfiles & Hin & Hout). injection Ha as ->.
  injection H4 as <- <-. cbn [files environ] in *. rewrite Hfiles.
  destruct (IPAddressPath_not_scratch pod) as [Hh Hr].
  exists hostname, addrs. split_and!; auto.
  - rewrite lookup_insert_ne by assumption.
    rewrite lookup_insert_ne by discriminate. apply lookup_insert_eq.
  - rewrite lookup_insert_ne by assumption. apply lookup_insert_eq.
  - apply lookup_insert_eq.
  - rewrite Hout.
    + unfold kubeDNSIP in *. destruct (environ s !! "KUBEDNS_IP"); [reflexivity|].
      now contradiction Hne.
    + unfold envVars. cbn [In]. intuition discriminate.
Qed.

Lemma prepareContainers_success_witness :
  let h := demoHost (demoPod [] [demoContainer "web" None])
             (<["LD_LIBRARY_PATH" := "/opt/lib"]> dnsEnv) (fun _ _ _ => Runs 8 0) in
  let run := prepareContainers h (demoPod [] [demoContainer "web" None]) (initialState h) in
  files (stateOf run) !! "/work/default/demo/.ip" = Some "10.0.0.7" /\
  environ (stateOf run) !! "LD_LIBRARY_PATH" = None.
Proof.
  intros h run.
  assert (Hok : resultOf run = Ret None) by (vm_compute; reflexivity).
  destruct (prepareContainers_success h (demoPod [] [demoContainer "web" None]) (initialState h)
              Hok)
    as (hostname & addrs & _ & Haddrs & _ & _ & Hip & Henv & _).
  injection Haddrs as <-. split; [exact Hip|]. apply Henv. now left.
Defined.

(* ===================================================================== *)
(** * What a computation leaves untouched *)
(* ===================================================================== *)

Lemma keeps_bind {A B X : Type} (f : State -> X) (m : M A) (k : A -> M B) :
  keeps f m -> (forall a, keeps f (k a)) -> keeps f (bind m k).
Proof.
  intros Hm Hk s r s' evs H.
  apply bind_inv in H as [(a & s1 & e1 & e2 & H1 & H2 & ->)|(r0 & H1 & _ & _)].
  - rewrite (Hk _ _ _ _ _ H2). exact (Hm _ _ _ _ H1).
  - exact (Hm _ _ _ _ H1).
Qed.

(** A primitive that does not touch the component. *)
Ltac keeps_prim :=
  let H := fresh in
  intros ? ? ? ? H;
  cbv [emit log storeFile ret panic os_Exit blocked outOfFuel os_Getenv time_Now
       time_Sleep os_Unsetenv getGoroutines setGoroutines getPodDetails] in H;
  injection H as <- <- <-; reflexivity.

Lemma keeps_fileExists {X : Type} (f : State -> X) (h : Host) (filename : string) :
  keeps f (fileExists h filename).
Proof.
  intros s r s' evs H. destruct (fileExists_pure h filename s) as [r0 H0].
  rewrite H0 in H. now injection H as <- <- <-.
Qed.

Ltac keeps_step :=
  match goal with
  | |- keeps _ (bind _ _) => apply keeps_bind; [|intros ?]
  | |- keeps _ (fileExists _ _) => apply keeps_fileExists
  | |- keeps _ (os_WriteFile _ _ _) => unfold os_WriteFile
  | |- keeps _ (os_Create _ _) => unfold os_Create
  | |- keeps _ (os_MkdirAll _ _) => unfold os_MkdirAll
  | |- keeps _ (log_Fatal _) => unfold log_Fatal
  | |- keeps _ (match ?x with _ => _ end) => destruct x
  | |- keeps _ _ => solve [auto | keeps_prim]
  end.

Ltac keeps_auto := repeat keeps_step.

Lemma keeps_environ_prepareDNS h pod : keeps environ (prepareDNS h pod).
Proof. unfold prepareDNS, DebugDNSInfo. keeps_auto. Qed.

Lemma keeps_environ_announceIP h pod : keeps environ (announceIP h pod).
Proof. unfold announceIP. keeps_auto. Qed.

Lemma keeps_file_storeFile (p path content : string) (e : Event) :
  path <> p -> keeps (fun s => files s !! p) (storeFile path content e).
Proof.
  intros Hne s r s' evs [= <- <- <-]. cbn [files]. now apply lookup_insert_ne.
Qed.

Lemma keeps_ip_prepareDNS h pod :
  keeps (fun s => files s !! IPAddressPath pod) (prepareDNS h pod).
Proof.
  destruct (IPAddressPath_not_scratch pod) as [Hh Hr].
  pose proof (keeps_file_storeFile (IPAddressPath pod) "/scratch/etc/hosts") as H1.
  pose proof (keeps_file_storeFile (IPAddressPath pod) "/scratch/etc/resolv.conf") as H2.
  unfold prepareDNS, DebugDNSInfo. keeps_auto.
Qed.

(** X3: when [prepareContainers] returns an error, the error is that of
    the DNS step or of the IP step, no variable has been unset, and after a
    DNS error the pod's [.ip] file has not been written. *)
Theorem prepareContainers_failure (h : Host) (pod : Pod) (s : State) (e : string) :
  let run := prepareContainers h pod s in
  resultOf run = Ret (Some e) ->
  environ (stateOf run) = environ s /\
  forallb (fun ev => match ev with EvUnsetenv _ => false | _ => true end) (eventsOf run) = true /\
  ((exists e', e = "could not prepare DNS : " +:+ e' /\
               files (stateOf run) !! IPAddressPath pod = files s !! IPAddressPath pod) \/
   (exists e', e = "could not announce ip : " +:+ e')).
Proof.
  intros run Hres. subst run.
  destruct (prepareContainers h pod s) as [[r s'] evs] eqn:Hrun.
  unfold resultOf, stateOf, eventsOf in *. cbn [fst snd] in *. subst r.
  assert (Hev : forall h pod,
            emits (fun ev => match ev with EvUnsetenv _ => false | _ => true end)
                  (prepareDNS h pod) /\
            emits (fun ev => match ev with EvUnsetenv _ => false | _ => true end)
                  (announceIP h pod)).
  { intros h0 pod0. unfold prepareDNS, DebugDNSInfo, announceIP, os_MkdirAll, os_WriteFile.
    split; emits_auto. }
  unfold prepareContainers in Hrun.
  apply bind_inv in Hrun as [(a & s1 & e1 & e2 & H1 & H2 & ->)|(r0 & _ & Hr0 & Habs)];
    [|destruct r0; discriminate].
  destruct a as [e0|].
  { injection H2 as <- <- <-. rewrite app_nil_r. split_and!.
    - exact (keeps_environ_prepareDNS h pod _ _ _ _ H1).
    - exact (proj1 (Hev h pod) _ _ _ _ H1).
    - left. exists e0. split; [reflexivity|].
      exact (keeps_ip_prepareDNS h pod _ _ _ _ H1). }
  apply bind_inv in H2 as [(a & s2 & e2' & e3 & H2 & H3 & ->)|(r0 & _ & Hr0 & Habs)];
    [|destruct r0; discriminate].
  destruct a as [e0|].
  { injection H3 as <- <- <-. rewrite app_nil_r. split_and!.
    - rewrite (keeps_environ_announceIP h pod _ _ _ _ H2).
      exact (keeps_environ_prepareDNS h pod _ _ _ _ H1).
    - rewrite forallb_app, (proj1 (Hev h pod) _ _ _ _ H1), (proj2 (Hev h pod) _ _ _ _ H2).
      reflexivity.
    - right. exists e0. reflexivity. }
  apply bind_inv in H3 as [(a & s3 & e3' & e4 & H3 & H4 & ->)|(r0 & _ & Hr0 & Habs)];
    [|destruct r0; discriminate].
  apply cleanEnvironment_inv in H3 as (Ha & _). injection Ha as ->.
  discriminate H4.
Qed.

Lemma prepareContainers_failure_witness :
  let pod := demoPod [] [demoContainer "web" None] in
  let run := prepareContainers noDNSHost pod (initialState noDNSHost) in
  environ (stateOf run) = environ (initialState noDNSHost) /\
  files (stateOf run) !! IPAddressPath pod = None.
Proof.
  intros pod run.
  assert (Hres : resultOf run =
                 Ret (Some "could not prepare DNS : KUBEDNS_IP environment variable not set"))
    by (vm_compute; reflexivity).
  destruct (prepareContainers_failure noDNSHost pod (initialState noDNSHost) _ Hres)
    as (Henv & _ & [(e' & _ & Hip)|(e' & He')]).
  - split; [exact Henv|]. etransitivity; [exact Hip|reflexivity].
  - discriminate He'.
Defined.

(* ===================================================================== *)
(** * The address list and the hosts file *)
(* ===================================================================== *)

Lemma strings_Join_cons (t t' : string) (rest : list string) (sep : string) :
  strings_Join (t :: t' :: rest) sep = t +:+ sep +:+ strings_Join (t' :: rest) sep.
Proof. reflexivity. Qed.

(** Joining tokens by single spaces and splitting into fields gives the
    tokens back. *)
Lemma fields_Join (toks : list string) :
  Forall token toks -> fields (strings_Join toks " ") = toks.
Proof.
  induction toks as [|t toks IH]; intros Htoks; [reflexivity|].
  inversion Htoks as [|? ? [Hne Hns] Hrest]; subst.
  destruct toks as [|t' toks].
  - now apply fields_token.
  - rewrite strings_Join_cons.
    change (" " +:+ strings_Join (t' :: toks) " ")
      with (String " " (strings_Join (t' :: toks) " ")).
    rewrite fields_app_space by reflexivity.
    rewrite (fields_token t Hne Hns), (IH Hrest). reflexivity.
Qed.

Lemma noNewline_Join (toks : list string) :
  Forall token toks -> noChar "010" (strings_Join toks " ") = true.
Proof.
  induction toks as [|t toks IH]; intros Htoks; [reflexivity|].
  inversion Htoks as [|? ? [Hne Hns] Hrest]; subst.
  destruct toks as [|t' toks].
  - now apply noSpace_noNewline.
  - rewrite strings_Join_cons, !noChar_app, (noSpace_noNewline _ Hns), (IH Hrest).
    reflexivity.
Qed.

Lemma In_ipAddressesOf (addrs : list Addr) (ip : string) :
  In ip (ipAddressesOf addrs) <->
  exists addr, In addr addrs /\ isIPNet addr = true /\ IsLoopback addr = false /\
               hasTo4 addr = true /\ IPString addr = ip.
Proof.
  unfold ipAddressesOf. rewrite in_map_iff. split.
  - intros (addr & Hip & Hin). apply filter_In in Hin as [Hin Hflags].
    apply andb_prop in Hflags as [Hflags H4]. apply andb_prop in Hflags as [Hnet Hlo].
    apply negb_true_iff in Hlo. exists addr. auto.
  - intros (addr & Hin & Hnet & Hlo & H4 & Hip). exists addr. split; [assumption|].
    apply filter_In. split; [assumption|]. now rewrite Hnet, Hlo, H4.
Qed.

(** X4: when [announceIP] succeeds, the pod's [.ip] file, split into
    fields, gives back, in the order of the interfaces, exactly the
    addresses that are IP networks, not loopback and IPv4. *)
Theorem ip_file_round_trip (h : Host) (pod : Pod) (s : State) (addrs : list Addr) :
  let run := announceIP h pod s in
  net_InterfaceAddrs h = (addrs, None) ->
  resultOf run = Ret None ->
  Forall token (map IPString addrs) ->
  exists content,
    files (stateOf run) !! IPAddressPath pod = Some content /\
    fields content = ipAddressesOf addrs /\
    forall ip, In ip (fields content) <->
      exists addr, In addr addrs /\ isIPNet addr = true /\ IsLoopback addr = false /\
                   hasTo4 addr = true /\ IPString addr = ip.
Proof.
  intros run Haddrs Hres Htok. subst run.
  destruct (announceIP_success h pod s Hres) as (addrs' & Haddrs' & Heq).
  rewrite Haddrs in Haddrs'. injection Haddrs' as <-.
  rewrite Heq. unfold stateOf. cbn [fst snd files].
  exists (strings_Join (ipAddressesOf addrs) " ").
  assert (Hf : fields (strings_Join (ipAddressesOf addrs) " ") = ipAddressesOf addrs).
  { apply fields_Join. rewrite Forall_forall in *. intros ip Hip.
    apply Htok. apply list_elem_of_In in Hip.
    apply In_ipAddressesOf in Hip as (addr & Hin & _ & _ & _ & <-).
    apply list_elem_of_In. now apply in_map. }
  split; [apply lookup_insert_eq|]. split; [exact Hf|].
  intros ip. rewrite Hf. apply In_ipAddressesOf.
Qed.

Lemma ip_file_round_trip_witness :
  let lo := {| isIPNet := true; IsLoopback := true; hasTo4 := true; IPString := "127.0.0.1" |} in
  let v6 := {| isIPNet := true; IsLoopback := false; hasTo4 := false; IPString := "fe80::1" |} in
  let a := {| isIPNet := true; IsLoopback := false; hasTo4 := true; IPString := "10.0.0.7" |} in
  let b := {| isIPNet := true; IsLoopback := false; hasTo4 := true; IPString := "10.0.1.7" |} in
  let pod := demoPod [] [demoContainer "web" None] in
  let h0 := demoHost pod dnsEnv (fun _ _ _ => Runs 8 0) in
  let h := {| flag_pod := flag_pod h0; flag_namespace := flag_namespace h0;
              BuildConfigFromFlags_err := None; NewForConfig_err := None;
              api_latency := api_latency h0; api_reply := api_reply h0;
              os_Environ := os_Environ h0; os_Stat := os_Stat h0;
              os_MkdirAll_err := os_MkdirAll_err h0; os_WriteFile_err := os_WriteFile_err h0;
              os_Create_err := os_Create_err h0; os_Hostname := os_Hostname h0;
              net_InterfaceAddrs := ([lo; a; v6; b], None);
              os_Getpid := 100; sh_CombinedOutput := sh_CombinedOutput h0;
              apptainer := apptainer h0; preempt := preempt h0;
              DetermineEffectiveRunAsUser := DetermineEffectiveRunAsUser h0;
              ParseImageName := ParseImageName h0; ImageDir := ImageDir h0 |} in
  exists content,
    files (stateOf (announceIP h pod (initialState h))) !! IPAddressPath pod = Some content /\
    fields content = ["10.0.0.7"; "10.0.1.7"].
Proof.
  intros lo v6 a b pod h0 h.
  assert (Htok : Forall token (map IPString [lo; a; v6; b])).
  { repeat constructor; discriminate. }
  destruct (ip_file_round_trip h pod (initialState h) [lo; a; v6; b] eq_refl eq_refl Htok)
    as (content & Hfile & Hfields & _).
  exists content. split; [exact Hfile|exact Hfields].
Defined.

(** X5: when [prepareDNS] succeeds, [/scratch/etc/hosts] has the loopback
    line and one line whose fields are the announced addresses followed by
    the host name; with no address the line holds the host name alone. *)
Theorem hosts_file_lines (h : Host) (pod : Pod) (s : State)
    (hostname : string) (addrs : list Addr) :
  let run := prepareDNS h pod s in
  os_Hostname h = (hostname, None) ->
  net_InterfaceAddrs h = (addrs, None) ->
  resultOf run = Ret None ->
  token hostname ->
  Forall token (ipAddressesOf addrs) ->
  exists content,
    files (stateOf run) !! "/scratch/etc/hosts" = Some content /\
    map fields (splitOn "010" content) =
    [["127.0.0.1"; "localhost"]; ipAddressesOf addrs ++ [hostname]; []].
Proof.
  intros run Hhost Haddrs Hres [Hne Hns] Htok. subst run.
  destruct (prepareDNS_success h pod s Hres) as (hostname' & addrs' & Hhost' & Haddrs' & _ & ->).
  rewrite Hhost in Hhost'. injection Hhost' as <-.
  rewrite Haddrs in Haddrs'. injection Haddrs' as <-.
  unfold stateOf. cbn [fst snd files]. eexists. split; [apply lookup_insert_eq|].
  set (ips := strings_Join (ipAddressesOf addrs) " ").
  assert (Heq : "127.0.0.1 localhost" +:+ newline +:+ (ips +:+ " " +:+ hostname) +:+ " " +:+ newline
                = "127.0.0.1 localhost" +:+
                  String "010" ((ips +:+ String " " (hostname +:+ String " " "")) +:+
                                String "010" "")).
  { unfold newline.
    repeat (rewrite append_assoc || rewrite append_cons || rewrite append_nil).
    reflexivity. }
  assert (Hline : noChar "010" (ips +:+ String " " (hostname +:+ String " " "")) = true).
  { rewrite noChar_app. subst ips. rewrite (noNewline_Join _ Htok).
    cbn [noChar]. rewrite noChar_app, (noSpace_noNewline _ Hns). reflexivity. }
  rewrite Heq, splitOn_app, splitOn_app by (assumption || reflexivity).
  cbn [map splitOn].
  rewrite !fields_app_space by reflexivity.
  subst ips. rewrite (fields_Join _ Htok), (fields_token _ Hne Hns). reflexivity.
Qed.

Lemma hosts_file_lines_witness :
  let pod := demoPod [] [demoContainer "web" None] in
  let h := demoHost pod dnsEnv (fun _ _ _ => Runs 8 0) in
  exists content,
    files (stateOf (prepareDNS h pod (initialState h))) !! "/scratch/etc/hosts" = Some content /\
    map fields (splitOn "010" content) =
    [["127.0.0.1"; "localhost"]; ["10.0.0.7"; "nid001"]; []].
Proof.
  intros pod h.
  assert (Hres : resultOf (prepareDNS h pod (initialState h)) = Ret None)
    by (vm_compute; reflexivity).
  assert (Hhost : token "nid001") by (split; [discriminate|reflexivity]).
  assert (Htok : Forall token ["10.0.0.7"]) by (repeat constructor; discriminate).
  exact (hosts_file_lines h pod (initialState h) "nid001" _ eq_refl eq_refl Hres Hhost Htok).
Defined.

(* ===================================================================== *)
(** * The argument vector, further *)
(* ===================================================================== *)

Lemma length_appendToLast (l : list string) (suffix : string) :
  length (appendToLast l suffix) = length l.
Proof. unfold appendToLast. apply length_alter. Qed.

Lemma length_bindStep (hpkEnv : bool) (binds l : list string) :
  length (initBindStep hpkEnv binds l) = (length l + if hpkEnv then 2 else 0)%nat /\
  length (mainBindStep hpkEnv binds l) = (length l + if hpkEnv then 2 else 0)%nat.
Proof.
  unfold initBindStep, mainBindStep.
  destruct hpkEnv, (0 <? length binds)%nat;
    rewrite ?length_appendToLast, ?length_app; simpl; split; lia.
Qed.

(** X6: in both launcher functions the number of arguments is fixed by
    [hpkEnv], the ids, the presence of the env file, the command and the
    arguments: volume binds never add an argument.  The vector ends with the
    image path followed by the command and the arguments as given, and the
    image path is preceded by [--env-file /scratch/<instance>.env] when the
    env file exists. *)
Theorem argument_vector_layout (isDebug hpkEnv : bool) (uid gid : Z) (present : bool)
    (imagePath : string) (pod : Pod) (container : Container) :
  let n := (7 + (if hpkEnv then 2 else 0) + (if (uid =? 0)%Z then 0 else 3) +
            (if (gid =? 0)%Z then 0 else 3) + (if present then 2 else 0) + 1 +
            length (elems (Command container)) + length (Args container))%nat in
  let envFile :=
    if present
    then ["--env-file"; filepath_Join "/scratch" (instanceName pod container +:+ ".env")]
    else [] in
  let argsInit := initApptainerArgs isDebug hpkEnv uid gid present imagePath pod container in
  let argsMain := mainApptainerArgs isDebug hpkEnv uid gid present imagePath pod container in
  length argsInit = n /\ length argsMain = n /\
  (exists front,
     argsInit = front ++ envFile ++ [imagePath] ++ elems (Command container) ++ Args container /\
     front = securityStep uid gid
               (initBindStep hpkEnv (bindsOf pod container) (fixedArgs isDebug container))) /\
  (exists front,
     argsMain = front ++ envFile ++ [imagePath] ++ elems (Command container) ++ Args container /\
     front = securityStep uid gid
               (mainBindStep hpkEnv (bindsOf pod container) (fixedArgs isDebug container))).
Proof.
  intros n envFile argsInit argsMain. subst n envFile argsInit argsMain.
  unfold initApptainerArgs, mainApptainerArgs.
  destruct (length_bindStep hpkEnv (bindsOf pod container) (fixedArgs isDebug container))
    as [Hi Hm].
  assert (Htail : forall l,
            tailStep present pod imagePath container l =
            l ++ (if present
                  then ["--env-file";
                        filepath_Join "/scratch" (instanceName pod container +:+ ".env")]
                  else []) ++ [imagePath] ++ elems (Command container) ++ Args container).
  { intros l. unfold tailStep. destruct present; rewrite <- ?app_assoc; reflexivity. }
  rewrite !Htail. split_and!.
  - rewrite securityStep_app, !length_app, Hi. unfold uidOverride, gidOverride.
    destruct (uid =? 0), (gid =? 0), present; simpl; lia.
  - rewrite securityStep_app, !length_app, Hm. unfold uidOverride, gidOverride.
    destruct (uid =? 0), (gid =? 0), present; simpl; lia.
  - eexists. split; reflexivity.
  - eexists. split; reflexivity.
Qed.

(* ===================================================================== *)
(** * One init container, further *)
(* ===================================================================== *)

Lemma quiet_no_spawn (evs before after : list Event) (k : Kind) (j : nat) (argv : list string) :
  forallb quiet evs = true -> evs = before ++ EvSpawn k j argv :: after -> False.
Proof.
  intros Hq ->. assert (Hin : In (EvSpawn k j argv) (before ++ EvSpawn k j argv :: after))
    by apply in_elt.
  pose proof (forallb_In _ _ _ Hq Hin) as H. discriminate H.
Qed.

Lemma spawnedProperly_quiet h pod hpkEnv isDebug i c (evs : list Event) :
  forallb quiet evs = true -> spawnedProperly h pod hpkEnv isDebug i c evs.
Proof. intros Hq before k j argv after Heq. destruct (quiet_no_spawn _ _ _ _ _ _ Hq Heq). Qed.

Lemma spawnedProperly_prefix h pod hpkEnv isDebug i c (pre evs : list Event) :
  forallb quiet pre = true ->
  spawnedProperly h pod hpkEnv isDebug i c evs ->
  spawnedProperly h pod hpkEnv isDebug i c (pre ++ evs).
Proof.
  intros Hpre HP before k j argv after Heq.
  apply app_eq_split in Heq as [(m & -> & Heq)|(m & Heq & _)].
  - destruct (HP m k j argv after Heq) as (Hk & Hj & Hargv & (b1 & Hb1 & ->) & Hafter).
    split_and!; auto. exists (pre ++ b1). rewrite forallb_app, Hpre, Hb1, <- app_assoc. auto.
  - destruct (quiet_no_spawn _ _ _ _ _ _ Hpre Heq).
Qed.

Lemma eventsSatisfy_bind {A B : Type} (P : list Event -> Prop) (R : A -> Prop)
    (m : M A) (k : A -> M B) :
  (forall pre evs, forallb quiet pre = true -> P evs -> P (pre ++ evs)) ->
  (forall evs, forallb quiet evs = true -> P evs) ->
  emits quiet m ->
  (forall s a s' e, m s = (Ret a, s', e) -> R a) ->
  (forall a, R a -> eventsSatisfy P (k a)) ->
  eventsSatisfy P (bind m k).
Proof.
  intros Hprefix Hquiet Hm HR Hk s r s' evs H.
  apply bind_inv in H as [(a & s1 & e1 & e2 & H1 & H2 & ->)|(r0 & H1 & _ & _)].
  - apply Hprefix; [exact (Hm _ _ _ _ H1)|].
    exact (Hk a (HR _ _ _ _ H1) _ _ _ _ H2).
  - apply Hquiet. exact (Hm _ _ _ _ H1).
Qed.

Lemma fileExists_any_state (h : Host) (filename : string) (s s' : State) (b : bool)
    (e : list Event) :
  fileExists h filename s = (Ret b, s', e) ->
  forall s0, fileExists h filename s0 = (Ret b, s0, []).
Proof.
  unfold fileExists. destruct (String.eqb filename "").
  - intros [= <- _ _] s0. reflexivity.
  - destruct (os_Stat h filename) as [info|err].
    + intros [= <- _ _] s0. reflexivity.
    + destruct (os_IsNotExist err); [|discriminate]. intros [= <- _ _] s0. reflexivity.
Qed.

(** Splitting an explicit list of events at a spawn. *)
Ltac split_at_spawn Heq before :=
  repeat (destruct before as [|? before];
          [try discriminate Heq | injection Heq as <- Heq]);
  try (destruct before; discriminate Heq).

(** From the write of [.id] to the end of the loop body. *)
Lemma init_launch_events (h : Host) (pod : Pod) (i : nat) (c : Container)
    (argv0 : list string) :
  eventsSatisfy
    (fun evs =>
       forall before k j argv after,
         evs = before ++ EvSpawn k j argv :: after ->
         k = Init /\ j = i /\ argv = argv0 /\
         before = [EvWriteFile (IDPath pod (Name c)) ("pid://" +:+ strconv_Itoa (os_Getpid h));
                   EvLog "debug" "ApptainerArgs"; EvCreate (LogsPath pod (Name c))] /\
         exists code rest, after = EvTerminated Init i code :: rest /\ forallb quiet rest = true)
    (err <- os_WriteFile h (IDPath pod (Name c)) ("pid://" +:+ strconv_Itoa (os_Getpid h)) ;;
     match err with
     | Some _ => ret (Some "failed to create pid file")
     | None =>
         log "debug" "ApptainerArgs" ;;
         err <- os_Create h (LogsPath pod (Name c)) ;;
         match err with
         | Some e => ret (Some ("failed to create log file: " +:+ e))
         | None => runInitContainer h pod i c argv0
         end
     end).
Proof.
  intros s r s' evs. unfold runInitContainer, cmd_Run, os_WriteFile, os_Create.
  destruct (os_WriteFile_err h (IDPath pod (Name c))) as [e|].
  { unfold bind, ret. simpl. intros [= <- <- <-] before k j argv after Heq.
    destruct before; discriminate Heq. }
  destruct (os_Create_err h (LogsPath pod (Name c))) as [e|].
  { unfold bind, ret, log, emit, storeFile. simpl. intros [= <- <- <-] before k j argv after Heq.
    split_at_spawn Heq before. }
  destruct (apptainer h Init i argv0) as [e|pid code].
  { unfold bind, ret, log, emit, storeFile. simpl. intros [= <- <- <-] before k j argv after Heq.
    split_at_spawn Heq before. }
  destruct (code =? 0).
  - destruct (os_WriteFile_err h (ExitCodePath pod (Name c))) as [e|];
      unfold bind, ret, log, emit, storeFile; simpl;
      intros [= <- <- <-] before k j argv after Heq;
      (destruct before as [|? before]; [discriminate Heq|injection Heq as <- Heq]);
      (destruct before as [|? before]; [discriminate Heq|injection Heq as <- Heq]);
      (destruct before as [|? before]; [discriminate Heq|injection Heq as <- Heq]);
      (destruct before as [|? before];
       [injection Heq as <- <- <- <-; split_and!; eauto
       |injection Heq as <- Heq; split_at_spawn Heq before]).
  - unfold bind, ret, log, emit, storeFile; simpl;
      intros [= <- <- <-] before k j argv after Heq;
      (destruct before as [|? before]; [discriminate Heq|injection Heq as <- Heq]);
      (destruct before as [|? before]; [discriminate Heq|injection Heq as <- Heq]);
      (destruct before as [|? before]; [discriminate Heq|injection Heq as <- Heq]);
      (destruct before as [|? before];
       [injection Heq as <- <- <- <-; split_and!; eauto
       |injection Heq as <- Heq; split_at_spawn Heq before]).
Qed.

(** X7: every child spawned by one iteration of the loop of
    [handleInitContainers] is the init container of that iteration, run
    with the argument vector built from the effective ids, the image path
    and the result of [fileExists] on the [.env] path; its [.id] file, with
    the agent's own pid, and its log file exist before it is spawned, and
    the agent waits for it before doing anything else. *)
Theorem init_container_spawn (h : Host) (pod : Pod) (hpkEnv isDebug : bool)
    (i : nat) (c : Container) (s : State) :
  spawnedProperly h pod hpkEnv isDebug i c
    (eventsOf (initContainerBody h pod hpkEnv isDebug i c s)).
Proof.
  assert (H : eventsSatisfy (spawnedProperly h pod hpkEnv isDebug i c)
                (initContainerBody h pod hpkEnv isDebug i c)).
  2:{ destruct (initContainerBody h pod hpkEnv isDebug i c s) as [[r s'] evs] eqn:Hrun.
      exact (H _ _ _ _ Hrun). }
  pose proof (spawnedProperly_prefix h pod hpkEnv isDebug i c) as Hprefix.
  pose proof (spawnedProperly_quiet h pod hpkEnv isDebug i c) as Hquiet.
  unfold initContainerBody.
  destruct (DetermineEffectiveRunAsUser h pod c) as [uid gid] eqn:Hids.
  apply (eventsSatisfy_bind _ (fun _ => True));
    [exact Hprefix|exact Hquiet|emits_auto|trivial|intros ? _].
  apply (eventsSatisfy_bind _ (fun _ => True));
    [exact Hprefix|exact Hquiet|emits_auto|trivial|intros [e|] _].
  { intros s0 r s' evs [= <- <- <-]. now apply Hquiet. }
  apply (eventsSatisfy_bind _
           (fun present => forall s0,
              fileExists h (EnvFilePath pod (Name c)) s0 = (Ret present, s0, [])));
    [exact Hprefix|exact Hquiet|emits_auto| |].
  { intros s0 b s' e0. apply fileExists_any_state. }
  intros present Hpresent s0 r s' evs Hrun before k j argv after Heq.
  destruct (init_launch_events h pod i c _ _ _ _ _ Hrun before k j argv after Heq)
    as (-> & -> & -> & -> & Hafter).
  split; [reflexivity|]. split; [reflexivity|]. split.
  { exists present. split; [exact Hpresent|]. rewrite Hids. reflexivity. }
  split; [|exact Hafter].
  exists []. split; reflexivity.
Qed.

(* ===================================================================== *)
(** * One main container *)
(* ===================================================================== *)

Lemma container_paths_lastChar (pod : Pod) (name : string) :
  lastChar (IDPath pod name) = Some "d"%char /\
  lastChar (ExitCodePath pod name) = Some "e"%char /\
  lastChar (LogsPath pod name) = Some "s"%char.
Proof.
  unfold IDPath, ExitCodePath, LogsPath, filepath_Join.
  change ("/" +:+ ".id") with (String "/" ".id").
  change ("/" +:+ ".exitCode") with (String "/" ".exitCode").
  change ("/" +:+ ".logs") with (String "/" ".logs").
  rewrite !lastChar_app. auto.
Qed.

Lemma container_paths_distinct (pod : Pod) (name : string) :
  IDPath pod name <> ExitCodePath pod name /\
  IDPath pod name <> LogsPath pod name /\
  ExitCodePath pod name <> LogsPath pod name.
Proof.
  destruct (container_paths_lastChar pod name) as (Hid & Hex & Hlog).
  split_and!; intros Heq; rewrite Heq in *; congruence.
Qed.

(** X8: a main container that can be started, whose log file can be
    created and whose two files can be written, goes through create log,
    spawn, write [.id] with the pid of the child, wait, write [.exitCode]
    in this order; the exit code is recorded whatever it is, a non-zero one
    only adding an error message. *)
Theorem main_container_lifecycle (h : Host) (pod : Pod) (t : Task) (s : State)
    (pid code : Z) :
  let name := Name (taskContainer t) in
  let run := goroutineRun h pod t 5 AtCreate s in
  apptainer h Main (taskIndex t) (taskArgs t) = Runs pid code ->
  os_Create_err h (LogsPath pod name) = None ->
  os_WriteFile_err h (IDPath pod name) = None ->
  os_WriteFile_err h (ExitCodePath pod name) = None ->
  resultOf run = Ret Finished /\
  files (stateOf run) !! IDPath pod name = Some ("pid://" +:+ strconv_Itoa pid) /\
  files (stateOf run) !! ExitCodePath pod name = Some (strconv_Itoa code) /\
  files (stateOf run) !! LogsPath pod name = Some "" /\
  exists msg,
    eventsOf run =
      [EvLog "debug" "ApptainerArgs"; EvCreate (LogsPath pod name);
       EvLog "info" ("Spawning main container: " +:+ name);
       EvSpawn Main (taskIndex t) (taskArgs t);
       EvWriteFile (IDPath pod name) ("pid://" +:+ strconv_Itoa pid);
       EvTerminated Main (taskIndex t) code] ++
      (if code =? 0 then [] else [EvLog "error" msg]) ++
      [EvWriteFile (ExitCodePath pod name) (strconv_Itoa code)].
Proof.
  intros name run Hstart Hlog Hid Hexit. subst run.
  destruct (container_paths_distinct pod name) as (Hie & Hil & Hel).
  cbn [goroutineRun]. unfold goroutineStep. fold name.
  unfold os_Create, os_WriteFile. rewrite Hstart, Hlog, Hid, Hexit.
  unfold bind, log, emit, storeFile, ret, resultOf, stateOf, eventsOf.
  destruct (code =? 0); cbn [fst snd files app];
    (split_and!;
     [reflexivity
     |rewrite lookup_insert_ne by congruence; apply lookup_insert_eq
     |apply lookup_insert_eq
     |rewrite lookup_insert_ne by congruence; rewrite lookup_insert_ne by congruence;
      apply lookup_insert_eq
     |first [eexists; reflexivity | exists ""; reflexivity]]).
Qed.

Lemma main_container_lifecycle_witness :
  let t := {| taskIndex := 0; taskContainer := demoContainer "web" None; taskArgs := ["run"] |} in
  let pod := demoPod [] [demoContainer "web" None] in
  let h := demoHost pod dnsEnv (fun _ _ _ => Runs 4242 3) in
  files (stateOf (goroutineRun h pod t 5 AtCreate (initialState h))) !! ExitCodePath pod "web"
    = Some "3".
Proof.
  intros t pod h.
  destruct (main_container_lifecycle h pod t (initialState h) 4242 3
              eq_refl eq_refl eq_refl eq_refl) as (_ & _ & Hexit & _).
  exact Hexit.
Defined.

(** X9: when the log file of a main container cannot be created, its
    goroutine ends without starting anything and without writing a file;
    when the child is started but [.id] cannot be written, the goroutine
    ends without waiting for the child, so that no termination is observed
    and no [.exitCode] is written. *)
Theorem main_container_early_return (h : Host) (pod : Pod) (t : Task) (s : State) (n : nat) :
  let name := Name (taskContainer t) in
  (forall e,
     os_Create_err h (LogsPath pod name) = Some e ->
     goroutineRun h pod t (S n) AtCreate s =
     (Ret Finished, s,
      [EvLog "debug" "ApptainerArgs";
       EvLog "error" ("Failed to create log file " +:+ LogsPath pod name)])) /\
  (forall pid code e,
     os_Create_err h (LogsPath pod name) = None ->
     apptainer h Main (taskIndex t) (taskArgs t) = Runs pid code ->
     os_WriteFile_err h (IDPath pod name) = Some e ->
     let run := goroutineRun h pod t (S (S (S n))) AtCreate s in
     resultOf run = Ret Finished /\
     files (stateOf run) = <[LogsPath pod name := ""]> (files s) /\
     eventsOf run =
       [EvLog "debug" "ApptainerArgs"; EvCreate (LogsPath pod name);
        EvLog "info" ("Spawning main container: " +:+ name);
        EvSpawn Main (taskIndex t) (taskArgs t);
        EvLog "error" "Failed to create pid file"]).
Proof.
  intros name.
  assert (Hfin : forall m s0, goroutineRun h pod t m Finished s0 = (Ret Finished, s0, [])).
  { induction m as [|m IH]; intros s0; [reflexivity|].
    cbn [goroutineRun goroutineStep]. unfold bind, ret. cbv beta iota.
    rewrite IH. reflexivity. }
  split.
  - intros e Hlog. cbn [goroutineRun]. unfold goroutineStep at 1. fold name.
    unfold os_Create. rewrite Hlog.
    unfold bind, log, emit, ret. cbv beta iota. rewrite Hfin. reflexivity.
  - intros pid code e Hlog Hstart Hid run. subst run.
    cbn [goroutineRun]. unfold goroutineStep. fold name.
    unfold os_Create, os_WriteFile. rewrite Hlog, Hstart, Hid.
    unfold bind, log, emit, storeFile, ret. cbv beta iota. rewrite Hfin.
    unfold resultOf, stateOf, eventsOf. cbn [fst snd files app].
    split_and!; reflexivity.
Qed.

Lemma main_container_early_return_witness :
  let t := {| taskIndex := 0; taskContainer := demoContainer "web" None; taskArgs := ["run"] |} in
  let pod := demoPod [] [demoContainer "web" None] in
  let h := withFiles (demoHost pod dnsEnv (fun _ _ _ => Runs 8 0))
             (fun _ => StatError ENOENT) (fun _ => Some "read-only file system")
             (fun _ => ("", None)) in
  goroutineRun h pod t 1 AtCreate (initialState h) =
  (Ret Finished, initialState h,
   [EvLog "debug" "ApptainerArgs";
    EvLog "error" ("Failed to create log file " +:+ LogsPath pod "web")]).
Proof.
  intros t pod h.
  exact (proj1 (main_container_early_return h pod t (initialState h) 0)
           "read-only file system" eq_refl).
Defined.

(* ===================================================================== *)
(** * The goroutines of handleContainers *)
(* ===================================================================== *)

Lemma keeps_goroutines_goroutineStep h pod t pc : keeps goroutines (goroutineStep h pod t pc).
Proof.
  unfold goroutineStep. destruct pc as [| |[[pid code]|]|code|code|]; keeps_auto.
Qed.

Lemma keeps_goroutines_evaluateEnvFile h pod c : keeps goroutines (evaluateEnvFile h pod c).
Proof. unfold evaluateEnvFile. keeps_auto. Qed.

Lemma keeps_tasks_runGoroutine h pod i :
  keeps (fun s => map fst (goroutines s)) (runGoroutine h pod i).
Proof.
  intros s r s' evs H. unfold runGoroutine in H.
  apply bind_inv in H as [(gs & s1 & e1 & e2 & H1 & H2 & ->)|(r0 & H1 & Hr & _)];
    [|inversion H1; subst; discriminate].
  inversion H1; subst; clear H1.
  destruct (goroutines s1 !! i) as [[t pc]|] eqn:Hi.
  - apply bind_inv in H2 as [(pc' & s2 & e3 & e4 & H3 & H4 & ->)|(r0 & H3 & _ & _)].
    + inversion H4; subst; clear H4. cbn [goroutines].
      rewrite <- (keeps_goroutines_goroutineStep h pod t pc _ _ _ _ H3) in Hi |- *.
      change (map fst (<[i:=(t, pc')]> (goroutines s2))) with
        (fst <$> <[i:=(t, pc')]> (goroutines s2)).
      rewrite list_fmap_insert. apply list_insert_id.
      rewrite list_lookup_fmap, Hi. reflexivity.
    + f_equal. exact (keeps_goroutines_goroutineStep h pod t pc _ _ _ _ H3).
  - inversion H2; subst. reflexivity.
Qed.

Lemma keeps_tasks_runGoroutines h pod steps :
  keeps (fun s => map fst (goroutines s)) (runGoroutines h pod steps).
Proof.
  induction steps as [|i rest IH]; cbn [runGoroutines].
  - keeps_prim.
  - apply keeps_bind; [apply keeps_tasks_runGoroutine|intros _; exact IH].
Qed.

Lemma containersFrom_goroutines (h : Host) (pod : Pod) (hpkEnv isDebug : bool)
    (l : list Container) :
  forall i s r s' evs,
    containersFrom h pod hpkEnv isDebug i l s = (r, s', evs) ->
    exists k ts,
      (k <= length l)%nat /\
      map fst (goroutines s') = map fst (goroutines s) ++ ts /\
      goroutinesFor h pod hpkEnv isDebug i (firstn k l) ts /\
      (r = Ret None -> k = length l).
Proof.
  induction l as [|c rest IH]; intros i s r s' evs H; cbn [containersFrom] in H.
  - inversion H; subst. exists 0%nat, []. rewrite app_nil_r. cbn. auto.
  - assert (Hstop : forall (s0 : State) (r0 : Res error),
              goroutines s0 = goroutines s -> r0 <> Ret None ->
              exists k ts,
                (k <= length (c :: rest))%nat /\
                map fst (goroutines s0) = map fst (goroutines s) ++ ts /\
                goroutinesFor h pod hpkEnv isDebug i (firstn k (c :: rest)) ts /\
                (r0 = Ret None -> k = length (c :: rest))).
    { intros s0 r0 Hg Hr. exists 0%nat, []. rewrite app_nil_r, Hg. cbn.
      split_and!; [lia|reflexivity|exact I|intros; congruence]. }
    destruct (DetermineEffectiveRunAsUser h pod c) as [uid gid] eqn:Hids.
    apply bind_inv in H as [(err & s1 & e1 & e2 & H1 & H2 & ->)|(r0 & H1 & Hr & ->)].
    2:{ apply Hstop; [exact (keeps_goroutines_evaluateEnvFile h pod c _ _ _ _ H1)|].
        destruct r0; discriminate. }
    pose proof (keeps_goroutines_evaluateEnvFile h pod c _ _ _ _ H1) as Hg1.
    destruct err as [e|].
    { inversion H2; subst. apply Hstop; [exact Hg1|discriminate]. }
    apply bind_inv in H2 as [(present & s2 & e3 & e4 & H3 & H4 & ->)|(r0 & H3 & Hr & ->)].
    2:{ apply Hstop.
        - rewrite (keeps_fileExists goroutines h _ _ _ _ _ H3). exact Hg1.
        - destruct r0; discriminate. }
    pose proof (keeps_fileExists goroutines h _ _ _ _ _ H3) as Hg2.
    pose proof (fileExists_any_state _ _ _ _ _ _ H3) as Hpresent.
    set (t := {| taskIndex := i; taskContainer := c;
                 taskArgs := mainApptainerArgs isDebug hpkEnv uid gid present
                               (imagePathOf h pod c) pod c |}) in H4.
    assert (Ht : launchedFor h pod hpkEnv isDebug i c t).
    { split; [reflexivity|]. split; [reflexivity|]. exists present.
      split; [exact Hpresent|]. rewrite Hids. reflexivity. }
    apply bind_inv in H4 as [(u & s3 & e5 & e6 & H5 & H6 & ->)|(r0 & H5 & Hr & _)];
      [|inversion H5; subst; discriminate].
    assert (Hg3 : map fst (goroutines s3) = map fst (goroutines s) ++ [t]).
    { inversion H5; subst. cbn [goroutines]. rewrite map_app, Hg2, Hg1. reflexivity. }
    clear H5.
    apply bind_inv in H6 as [(u' & s4 & e7 & e8 & H7 & H8 & ->)|(r0 & H7 & Hr & ->)].
    + pose proof (keeps_tasks_runGoroutines h pod _ _ _ _ _ H7) as Hg4. cbv beta in Hg4.
      destruct (IH _ _ _ _ _ H8) as (k & ts & Hk & Hts & Hfor & Hall).
      exists (S k), (t :: ts). cbn [length firstn goroutinesFor].
      split_and!; [lia| |exact Ht|exact Hfor|intros Hr; rewrite (Hall Hr); reflexivity].
      rewrite Hts, Hg4, Hg3, <- app_assoc. reflexivity.
    + pose proof (keeps_tasks_runGoroutines h pod _ _ _ _ _ H7) as Hg4. cbv beta in Hg4.
      exists 1%nat, [t]. cbn [length firstn goroutinesFor].
      split_and!; [lia| |exact Ht|exact I|].
      * rewrite Hg4. exact Hg3.
      * destruct r0; discriminate.
Qed.

(** X10: [handleContainers] creates one goroutine per main container, in
    the order of the pod's list and with the container's index and argument
    vector, and removes none; when it returns without error every container
    has its goroutine, otherwise those of a prefix of the list have been
    created. *)
Theorem handleContainers_goroutines (h : Host) (pod : Pod) (hpkEnv : bool) (s : State) :
  let run := handleContainers h pod hpkEnv s in
  let isDebug := String.eqb (default "" (environ s !! "DEBUG_MODE")) "true" in
  exists k ts,
    (k <= length (Containers pod))%nat /\
    map fst (goroutines (stateOf run)) = map fst (goroutines s) ++ ts /\
    goroutinesFor h pod hpkEnv isDebug 0%nat (firstn k (Containers pod)) ts /\
    (resultOf run = Ret None -> k = length (Containers pod)).
Proof.
  intros run isDebug. subst run.
  assert (Heq : handleContainers h pod hpkEnv s =
                containersFrom h pod hpkEnv isDebug 0%nat (Containers pod) s).
  { unfold handleContainers, os_Getenv, bind. fold isDebug.
    destruct (containersFrom h pod hpkEnv isDebug 0%nat (Containers pod) s) as [[r s'] evs].
    destruct r; reflexivity. }
  rewrite Heq.
  destruct (containersFrom h pod hpkEnv isDebug 0%nat (Containers pod) s)
    as [[r s'] evs] eqn:Hrun.
  unfold resultOf, stateOf. cbn [fst snd].
  exact (containersFrom_goroutines h pod hpkEnv isDebug _ _ _ _ _ _ Hrun).
Qed.

(* ===================================================================== *)
(** * Start-up and duration of the acquisition *)
(* ===================================================================== *)

(** X11: with an empty pod or namespace flag, or when the client
    configuration or the client cannot be built, [main] logs one fatal
    message and exits with status 1 before any request to the API server:
    the clock, the files, the environment and the request counter are as at
    the start. *)
Theorem startup_errors_exit (h : Host) (fuel : nat) (schedule : list Sched) (s : State) :
  flag_pod h = "" \/ flag_namespace h = "" \/
  BuildConfigFromFlags_err h <> None \/ NewForConfig_err h <> None ->
  exists msg, main h fuel schedule s = (Exit 1, s, [EvLog "fatal" msg]).
Proof.
  intros Hbad. unfold main.
  destruct (String.eqb_spec (flag_pod h) "") as [Hpod|Hpod].
  { eexists. reflexivity. }
  destruct (String.eqb_spec (flag_namespace h) "") as [Hns|Hns].
  { eexists. reflexivity. }
  cbn [orb]. rewrite bind_ret.
  destruct (BuildConfigFromFlags_err h) as [e|].
  { eexists. reflexivity. }
  destruct (NewForConfig_err h) as [e|].
  { eexists. reflexivity. }
  destruct Hbad as [H|[H|[H|H]]]; congruence.
Qed.

Lemma startup_errors_exit_witness :
  let h := {| flag_pod := "demo"; flag_namespace := "";
              BuildConfigFromFlags_err := None; NewForConfig_err := None;
              api_latency := fun _ => 0%N; api_reply := fun _ _ _ => None;
              os_Environ := dnsEnv; os_Stat := fun _ => StatError ENOENT;
              os_MkdirAll_err := fun _ => None; os_WriteFile_err := fun _ => None;
              os_Create_err := fun _ => None; os_Hostname := ("nid001", None);
              net_InterfaceAddrs := ([], None); os_Getpid := 100;
              sh_CombinedOutput := fun _ => ("", None);
              apptainer := fun _ _ _ => Runs 8 0; preempt := fun _ => [];
              DetermineEffectiveRunAsUser := fun _ _ => (0, 0);
              ParseImageName := fun image => image;
              ImageDir := fun _ => "/work/images/" |} in
  exists msg, pea h 61 [] = (Exit 1, initialState h, [EvLog "fatal" msg]).
Proof.
  intros h.
  exact (startup_errors_exit h 61 [] (initialState h) (or_intror (or_introl eq_refl))).
Defined.

(** The loop only lets time pass: it ends no later than fifteen seconds
    after the deadline when it starts before it, and touches neither the
    environment, the files nor the goroutines. *)
Lemma acquire_pod_loop_frame (h : Host) (deadline : Duration) (fuel : nat) :
  forall s r s' evs,
    acquire_pod_loop h fuel deadline s = (r, s', evs) ->
    now s <= now s' /\
    now s' <= Z.max (now s) (deadline + 15 * time_Second) /\
    (r = Ret tt -> now s' < deadline + 10 * time_Second) /\
    environ s' = environ s /\ files s' = files s /\ goroutines s' = goroutines s.
Proof.
  induction fuel as [|fuel IH]; intros s r s' evs H.
  { inversion H; subst. split_and!; try reflexivity; try lia. discriminate. }
  rewrite acquire_pod_loop_step in H.
  destruct (Z.leb_spec deadline (now s)) as [Hle|Hgt].
  { inversion H; subst. split_and!; try reflexivity; try lia. discriminate. }
  cbv zeta in H. pose proof (pollTook_bounds h (gets s)) as Htook.
  destruct (pollReply h (gets s)) as [pod|] eqn:Hreply.
  { inversion H; subst. cbn [now environ files goroutines].
    assert (Hlt : pollTook h (gets s) < 10 * time_Second).
    { unfold pollReply in Hreply. unfold pollTook.
      destruct (Z.leb_spec rpcTimeout (Z.of_N (api_latency h (gets s)))) as [|Hlt];
        [discriminate|exact Hlt]. }
    unfold time_Second in *. split_and!; try reflexivity; lia. }
  destruct (acquire_pod_loop h fuel deadline _) as [[r2 s2] evs2] eqn:Hrest.
  inversion H; subst.
  destruct (IH _ _ _ _ Hrest) as (H1 & H2 & H3 & H4 & H5 & H6).
  cbn [now environ files goroutines] in *.
  unfold retryInterval, time_Second in *.
  split_and!; try assumption; lia.
Qed.

(** X12: the acquisition of the pod, however it ends, takes no longer than
    5 minutes and 20 seconds of the program's clock, and changes neither
    the environment, the files nor the goroutines. *)
Theorem acquirePod_duration (h : Host) (fuel : nat) (s : State) :
  let run := acquirePod h fuel s in
  now s <= now (stateOf run) <= now s + 5 * time_Minute + 20 * time_Second /\
  environ (stateOf run) = environ s /\
  files (stateOf run) = files s /\
  goroutines (stateOf run) = goroutines s.
Proof.
  intros run. subst run. rewrite acquirePod_eq.
  destruct (acquire_pod_loop h fuel (now s + acquireTimeout) s) as [[r s1] evs1] eqn:Hloop.
  destruct (acquire_pod_loop_frame _ _ _ _ _ _ _ Hloop) as (H1 & H2 & H3 & H4 & H5 & H6).
  unfold acquireTimeout, time_Minute, time_Second in *.
  destruct r as [[]|msg|code| |]; unfold stateOf; cbn [fst snd abort].
  - specialize (H3 eq_refl). pose proof (pollTook_bounds h (gets s1)) as Htook.
    unfold time_Second in Htook.
    destruct (pollReply h (gets s1)); cbn [fst snd now environ files goroutines];
      split_and!; try assumption; lia.
  - split_and!; try assumption; lia.
  - split_and!; try assumption; lia.
  - split_and!; try assumption; lia.
  - split_and!; try assumption; lia.
Qed.

(* ===================================================================== *)
(** * No exit after the acquisition *)
(* ===================================================================== *)













(* ===================================================================== *)
(** * No panic on a host that behaves *)
(* ===================================================================== *)

















(* ===================================================================== *)
(** * The env file *)
(* ===================================================================== *)



